(** * Textosaurus: application glue, modelled and verified

    A shallow embedding of
    - [src/libtextosaurus/saurus/miscellaneous/application.cpp],
    - [src/libtextosaurus/common/exceptions/applicationexception.cpp],
    - [src/gui/sidebars/dockwidget.h],
    - [src/plugin-system/markdown/markdowntextbrowser.h].

    The C++ member functions mutate the [Application] singleton and call
    into the GUI toolkit.  Here they are programs of a small state and
    error monad [M]: the state is the application object together with the
    ordered log of toolkit calls made so far, the answers of the toolkit
    come from an oracle that sees that log, and dereferencing a null
    pointer aborts the run. *)

From stdpp Require Import base option strings list gmap.
From Stdlib Require Import ZArith.

Local Open Scope string_scope.

(** ** Strings of the toolkit *)

(** [QString] and [QStringList].  Characters are 8-bit here; the functions
    below only compare characters, so nothing depends on their width. *)
Abbreviation QString := string (only parsing).
Abbreviation QStringList := (list string) (only parsing).

(** [QStringList::join(sep)]. *)
Fixpoint join (sep : QString) (l : QStringList) : QString :=
  match l with
  | [] => ""
  | [x] => x
  | x :: l' => x ++ sep ++ join sep l'
  end.

(** [QList::mid(pos)]: the elements from position [pos] on, none when
    [pos] is past the end. *)
Definition mid {A} (pos : nat) (l : list A) : list A := drop pos l.

(** [QStringList::contains(str)], case sensitive. *)
Definition contains (l : QStringList) (str : QString) : bool :=
  bool_decide (str ∈ l).

(** The scan of [QString::split(sep)] for a non-empty separator, keeping
    empty parts: [cur] is the part read so far, [skip] counts the
    characters of a separator just matched that are still to be passed. *)
Fixpoint split_scan (sep : QString) (skip : nat) (cur s : QString)
  : QStringList :=
  match s with
  | EmptyString => [cur]
  | String c s' =>
      match skip with
      | S k => split_scan sep k cur s'
      | O =>
          if String.prefix sep s
          then cur :: split_scan sep (String.length sep - 1) "" s'
          else split_scan sep 0 (cur ++ String c "") s'
      end
  end.

(** [QString::split(sep)] with the default [Qt::KeepEmptyParts].  An empty
    separator cuts between all characters and yields an empty part at
    both ends. *)
Definition split (sep s : QString) : QStringList :=
  match sep with
  | EmptyString =>
      "" :: map (fun c => String c "") (String.list_ascii_of_string s) ++ [""]
  | _ => split_scan sep 0 "" s
  end.

(** The line feed, as a one-character string. *)
Definition LF : QString := String (Ascii.ascii_of_nat 10) "".

(** ** Values of the settings store *)

(** The [QVariant]s a settings store holds. *)
Inductive QVariant :=
| Invalid
| VBool (b : bool)
| VInt (n : Z)
| VString (s : QString).

(** [QChar::toLower] on the letters A to Z. *)
Definition toLower_char (c : Ascii.ascii) : Ascii.ascii :=
  let n := Ascii.nat_of_ascii c in
  if (65 <=? n)%nat && (n <=? 90)%nat then Ascii.ascii_of_nat (n + 32) else c.

Fixpoint toLower (s : QString) : QString :=
  match s with
  | EmptyString => EmptyString
  | String c s' => String (toLower_char c) (toLower s')
  end.

(** [QVariant::toBool]: a boolean is itself, a number is true when it is
    not zero, a string is true unless its lower-case form is empty, "0"
    or "false"; an invalid variant is false. *)
Definition toBool (v : QVariant) : bool :=
  match v with
  | Invalid => false
  | VBool b => b
  | VInt n => negb (n =? 0)%Z
  | VString s =>
      let l := toLower s in
      negb (String.eqb l "" || String.eqb l "0" || String.eqb l "false")
  end.

(** ** The macros of definitions.h and the setting names *)

(** The header that defines these macros and constants is not among the
    sources, so the model takes their values as parameters. *)
Class Definitions := {
  APP_IS_RUNNING : QString;
  APP_QUIT_INSTANCE : QString;
  ARGUMENTS_LIST_SEPARATOR : QString;
  APP_VERSION : QString;
  GROUP_General : QString;       (* GROUP(General) *)
  General_FirstRun : QString     (* General::FirstRun *)
}.

(** ** The application object *)

(** A pointer to an object owned by the toolkit: null, or an address. *)
Inductive pointer :=
| nullptr
| ptr (addr : positive).

Definition is_null (p : pointer) : bool :=
  match p with nullptr => true | ptr _ => false end.

(** [QSessionManager::RestartHint]. *)
Inductive RestartHint :=
| RestartIfRunning
| RestartAnyway
| RestartImmediately
| RestartNever.

(** The members of [Application] the modelled functions touch, with the
    two properties they use from its base classes: the command line
    ([QCoreApplication::arguments]) and [quitOnLastWindowClosed].
    [m_settings] is the content of the settings store, keyed by group and
    key. *)
Record Application := mkApplication {
  arguments : QStringList;
  quitOnLastWindowClosed : bool;
  m_settings : gmap (string * string) QVariant;
  m_mainForm : pointer;
  m_trayIcon : pointer;
  m_shouldRestart : bool;
  m_isQuitting : bool
}.

Definition set_m_trayIcon (p : pointer) (a : Application) : Application :=
  mkApplication (arguments a) (quitOnLastWindowClosed a) (m_settings a)
    (m_mainForm a) p (m_shouldRestart a) (m_isQuitting a).

Definition set_quitOnLastWindowClosed (b : bool) (a : Application)
  : Application :=
  mkApplication (arguments a) b (m_settings a)
    (m_mainForm a) (m_trayIcon a) (m_shouldRestart a) (m_isQuitting a).

Definition set_m_shouldRestart (b : bool) (a : Application) : Application :=
  mkApplication (arguments a) (quitOnLastWindowClosed a) (m_settings a)
    (m_mainForm a) (m_trayIcon a) b (m_isQuitting a).

Definition set_m_isQuitting (b : bool) (a : Application) : Application :=
  mkApplication (arguments a) (quitOnLastWindowClosed a) (m_settings a)
    (m_mainForm a) (m_trayIcon a) (m_shouldRestart a) b.

(** ** Calls into the toolkit and into the other objects *)

(** What the modelled functions ask of the outside, in the order they ask
    it.  The constructors are named after the C++ functions called. *)
Inductive Call :=
| sendMessage (message : QString)
| Settings_value (section key : QString) (default_value : QVariant)
| FormMain_display
| FormMain_close
| QCoreApplication_quit
| delete_SystemTrayIcon
| setQuitOnLastWindowClosed (b : bool)
| loadFilesFromArgs (args : QStringList)
| setRestartHint (h : RestartHint)
| allowsInteraction
| dataSaveRequested
| QSessionManager_release
| QSessionManager_cancel.

#[global] Instance Call_eq_dec : EqDecision Call.
Proof. unfold EqDecision, Decision. repeat decide equality. Defined.

(** The answers of the outside.  Each one may depend on everything that
    was called before. *)
Record Toolkit := {
  sendMessage_result : list Call -> QString -> bool;
  FormMain_close_result : list Call -> bool;
  allowsInteraction_result : list Call -> bool;
  dataSaveRequested_ok : list Call -> bool
}.

(** ** The monad of member functions *)

Record World := mkWorld {
  app : Application;
  calls : list Call
}.

(** A member function reads the toolkit, transforms the world and returns
    a value, or aborts ([None]) on a null-pointer dereference. *)
Definition M (A : Type) : Type := Toolkit -> World -> option (A * World).

Definition ret {A} (a : A) : M A := fun _ w => Some (a, w).

Definition bind {A B} (m : M A) (k : A -> M B) : M B :=
  fun tk w =>
    match m tk w with
    | Some (a, w') => k a tk w'
    | None => None
    end.

Declare Scope M_scope.
Delimit Scope M_scope with M.
Notation "'let*' x := m 'in' k" := (bind m (fun x => k))
  (at level 10, x name, m at level 100, k at level 200) : M_scope.
Notation "m ;;; k" := (bind m (fun _ => k))
  (at level 100, k at level 200, right associativity) : M_scope.
Local Open Scope M_scope.

Definition abort {A} : M A := fun _ _ => None.

Definition this {A} (f : Application -> A) : M A :=
  fun _ w => Some (f (app w), w).

Definition assign (f : Application -> Application) : M unit :=
  fun _ w => Some (tt, mkWorld (f (app w)) (calls w)).

(** A call whose answer the toolkit decides from the log so far. *)
Definition call {A} (c : Call) (answer : Toolkit -> list Call -> A) : M A :=
  fun tk w => Some (answer tk (calls w), mkWorld (app w) (calls w ++ [c])).

Definition call_ (c : Call) : M unit := call c (fun _ _ => tt).

(** A call through a pointer member: aborts when the pointer is null. *)
Definition through {A} (p : Application -> pointer) (m : M A) : M A :=
  let* q := this p in if is_null q then abort else m.

(** [QGuiApplication::setQuitOnLastWindowClosed], inherited by
    [Application]: a toolkit call that sets the property. *)
Definition QGuiApplication_setQuitOnLastWindowClosed (b : bool) : M unit :=
  call_ (setQuitOnLastWindowClosed b);;;
  assign (set_quitOnLastWindowClosed b).

(** Modelled from the spec: [Settings::value(section, key, default_value)];
    settings.h and settings.cpp are not among the sources.  It reads the
    store and gives [default_value] for a key that is absent, which is
    what "defaulting to true when absent" says of the call in
    [isFirstRun]. *)
Definition value (section key : QString) (default_value : QVariant)
  : M QVariant :=
  fun _ w =>
    Some (default default_value (m_settings (app w) !! (section, key)),
          mkWorld (app w) (calls w ++ [Settings_value section key default_value])).

(** ** application.cpp *)

Section ApplicationCpp.
Context `{Definitions}.

(** The list [QStringList() << APP_IS_RUNNING << arguments().mid(1)]. *)
Definition isRunning_tokens (a : Application) : QStringList :=
  ([] ++ [APP_IS_RUNNING]) ++ mid 1 (arguments a).

(** The message [Application::isRunning] hands to [sendMessage]. *)
Definition isRunning_message (a : Application) : QString :=
  join ARGUMENTS_LIST_SEPARATOR (isRunning_tokens a).

(** [Application::isRunning]. *)
Definition isRunning : M bool :=
  let* message := this isRunning_message in
  call (sendMessage message) (fun tk log => sendMessage_result tk log message).

(** [Application::isFirstRun(const QString& version)]. *)
Definition isFirstRun (version : QString) : M bool :=
  if String.eqb version APP_VERSION then
    let* v := value GROUP_General (General_FirstRun ++ "_" ++ version)
                (VBool true) in
    ret (toBool v)
  else
    ret false.

(** [Application::deleteTrayIcon]. *)
Definition deleteTrayIcon : M unit :=
  let* tray := this m_trayIcon in
  if negb (is_null tray) then
    through m_mainForm (call_ FormMain_display);;;
    call_ delete_SystemTrayIcon;;;
    assign (set_m_trayIcon nullptr);;;
    QGuiApplication_setQuitOnLastWindowClosed true
  else
    ret tt.

(** [Application::quitApplication]. *)
Definition quitApplication : M unit :=
  let* form := this m_mainForm in
  if negb (is_null form) then
    assign (set_m_isQuitting true);;;
    let* closed := call FormMain_close FormMain_close_result in
    if closed : bool then
      call_ QCoreApplication_quit
    else
      assign (set_m_isQuitting false);;;
      assign (set_m_shouldRestart false)
  else
    ret tt.

(** [Application::processExecutionMessage]. *)
Definition processExecutionMessage (message : QString) : M unit :=
  let messages := split ARGUMENTS_LIST_SEPARATOR message in
  if contains messages APP_QUIT_INSTANCE then
    quitApplication
  else
    if contains messages APP_IS_RUNNING then
      call_ (loadFilesFromArgs messages);;;
      through m_mainForm (call_ FormMain_display)
    else
      ret tt.

(** [Application::onCommitData]. *)
Definition onCommitData : M unit :=
  call_ (setRestartHint RestartNever);;;
  let* allowed := call allowsInteraction allowsInteraction_result in
  if allowed : bool then
    let* ok := call dataSaveRequested dataSaveRequested_ok in
    call_ QSessionManager_release;;;
    if negb ok then
      call_ QSessionManager_cancel
    else
      ret tt
  else
    ret tt.

(** [Application::onSaveState]. *)
Definition onSaveState : M unit :=
  call_ (setRestartHint RestartNever).

(** [Application::restart]. *)
Definition restart : M unit :=
  assign (set_m_shouldRestart true);;;
  quitApplication.

End ApplicationCpp.

(** The token list the specification describes for the message of
    [isRunning]: an "is running" flag, a "quit instance" flag and the
    command-line arguments without the program name.  It is stated here
    only to be compared with [isRunning_tokens]. *)
Definition spec_isRunning_tokens `{Definitions} (a : Application)
  : QStringList :=
  [APP_IS_RUNNING; APP_QUIT_INSTANCE] ++ mid 1 (arguments a).

Definition spec_isRunning_message `{Definitions} (a : Application)
  : QString :=
  join ARGUMENTS_LIST_SEPARATOR (spec_isRunning_tokens a).

(** The value of [QSessionManager::restartHint] after the calls of a log,
    when it was [h] before them. *)
Fixpoint restartHint (h : RestartHint) (log : list Call) : RestartHint :=
  match log with
  | [] => h
  | setRestartHint h' :: log' => restartHint h' log'
  | _ :: log' => restartHint h log'
  end.

(** [c1] is called, and [c2] is called some time after it. *)
Definition called_before (c1 c2 : Call) (log : list Call) : Prop :=
  exists l1 l2 l3, log = (l1 ++ c1 :: l2 ++ c2 :: l3)%list.

(** ** applicationexception.cpp *)

Module ApplicationException.

Record t := mk { m_message : QString }.

(** [ApplicationException::ApplicationException(const QString& message)]. *)
Definition ApplicationException (message : QString) : t :=
  {| m_message := message |}.

(** [QString ApplicationException::message() const]: the value returned,
    and the object after the call. *)
Definition message (e : t) : QString * t := (m_message e, e).

(** The member functions that can be called on a constructed
    exception. *)
Inductive operation :=
| op_message.

Definition perform (o : operation) (e : t) : QString * t :=
  match o with
  | op_message => message e
  end.

(** Performs the operations in turn; returns what each one returned and
    the object at the end. *)
Fixpoint perform_all (os : list operation) (e : t) : list QString * t :=
  match os with
  | [] => ([], e)
  | o :: os' =>
      let (r, e') := perform o e in
      let (rs, e'') := perform_all os' e' in
      (r :: rs, e'')
  end.

End ApplicationException.

(** ** dockwidget.h *)

Module DockWidget.

(** The virtual member functions that the class declares. *)
Inductive member :=
| destructor
| initialArea
| initiallyVisible
| initialWidth
| load
| showEvent.

#[global] Instance member_eq_dec : EqDecision member.
Proof. unfold EqDecision, Decision. decide equality. Defined.

Definition members : list member :=
  [destructor; initialArea; initiallyVisible; initialWidth; load; showEvent].

(** The members declared with [= 0]. *)
Definition pure_virtual (m : member) : bool :=
  match m with
  | initialArea | initiallyVisible | initialWidth | load => true
  | destructor | showEvent => false
  end.

(** A subclass, given by the members it overrides, can have objects
    when it leaves no pure virtual member without a definition. *)
Definition concrete (overrides : list member) : bool :=
  forallb (fun m => implb (pure_virtual m) (bool_decide (m ∈ overrides)))
    members.

(** The state of a dock widget: the visibility it has as a [QWidget],
    and its one data member. *)
Record t := mk {
  visible : bool;
  m_textApp : pointer
}.

(** Modelled from the spec: [DockWidget::switchVisibility]; the header
    only declares it and dockwidget.cpp is not among the sources.  It
    "toggles visibility on request". *)
Definition switchVisibility (w : t) : t :=
  {| visible := negb (visible w); m_textApp := m_textApp w |}.

End DockWidget.

(** ** markdowntextbrowser.h *)

Module MarkdownTextBrowser.

Abbreviation QUrl := string (only parsing).

(** What the browser uses from the toolkit: whether a URL is relative,
    the resolution of a relative URL against a folder, and the content
    the toolkit loads for a resource type and a URL. *)
Record Resources := {
  isRelative : QUrl -> bool;
  resolved : QString -> QUrl -> QUrl;
  load : Z -> QUrl -> QVariant
}.

(** The one data member, and the document shown. *)
Record t := mk {
  m_documentBaseFolder : QString;
  html : QString
}.

(** Modelled from the spec: [MarkdownTextBrowser::setMarkdownDocument];
    the header only declares it and markdowntextbrowser.cpp is not among
    the sources.  It "stores a base folder string". *)
Definition setMarkdownDocument (base_folder html_contents : QString)
    (b : t) : t :=
  {| m_documentBaseFolder := base_folder; html := html_contents |}.

(** Modelled from the spec: [MarkdownTextBrowser::loadResource], declared
    in the header only.  It "resolves relative resource URLs against"
    the stored folder "when the toolkit requests an embedded resource".
    Returns the resource and the object after the call. *)
Definition loadResource (rs : Resources) (type : Z) (name : QUrl) (b : t)
  : QVariant * t :=
  (if isRelative rs name
   then load rs type (resolved rs (m_documentBaseFolder b) name)
   else load rs type name,
   b).

(** A series of [loadResource] requests, served in turn. *)
Fixpoint loadResources (rs : Resources) (requests : list (Z * QUrl))
    (b : t) : list QVariant * t :=
  match requests with
  | [] => ([], b)
  | (type, name) :: requests' =>
      let (r, b') := loadResource rs type name b in
      let (rest, b'') := loadResources rs requests' b' in
      (r :: rest, b'')
  end.

End MarkdownTextBrowser.

(** ** Concrete instances, for running the model *)

(** One choice of the macros and setting names. *)
Definition sample_definitions : Definitions := {|
  APP_IS_RUNNING := "app_is_running";
  APP_QUIT_INSTANCE := "-q";
  ARGUMENTS_LIST_SEPARATOR := LF;
  APP_VERSION := "0.9.13";
  GROUP_General := "main";
  General_FirstRun := "first_run"
|}.

(** An application started as [textosaurus notes.txt], with a main form,
    no tray icon and an empty settings store. *)
Definition sample_application : Application := {|
  arguments := ["textosaurus"; "notes.txt"];
  quitOnLastWindowClosed := true;
  m_settings := ∅;
  m_mainForm := ptr 1;
  m_trayIcon := nullptr;
  m_shouldRestart := false;
  m_isQuitting := false
|}.

(** A toolkit whose main form closes when [closes], whose session manager
    allows interaction when [interactive], and whose save request reports
    [saved]; no peer process answers. *)
Definition sample_toolkit (closes interactive saved : bool) : Toolkit := {|
  sendMessage_result := fun _ _ => false;
  FormMain_close_result := fun _ => closes;
  allowsInteraction_result := fun _ => interactive;
  dataSaveRequested_ok := fun _ => saved
|}.

(** Resources under which a URL is relative unless it starts with a
    slash, resolution puts the folder and a slash in front, and the
    content of a resource is its URL. *)
Definition sample_resources : MarkdownTextBrowser.Resources := {|
  MarkdownTextBrowser.isRelative := fun name => negb (String.prefix "/" name);
  MarkdownTextBrowser.resolved := fun folder name => folder ++ "/" ++ name;
  MarkdownTextBrowser.load := fun _ name => VString name
|}.

(** ** The rest of application.cpp *)

(** The double quote, as a one-character string. *)
Definition QUOTE : QString := String (Ascii.ascii_of_nat 34) "".

(** The functions below make calls that the ones above do not.  They are
    logged on their own, each with the number of [Call]s made before it,
    so that the order of all calls is kept. *)
Inductive OtherCall :=
| Settings_setValue (section key : QString) (v : QVariant)
| new_QMenu (tray_icon_menu : bool) (title : QString)
| connect_triggered
| new_QAction
| setSeparator (b : bool)
| addActions
| new_SystemTrayIcon (icon : QString)
| setToolTip (tip : QString)
| SystemTrayIcon_show
| processEvents
| removeTrolltechJunkRegistryKeys
| FormMain_saveSize
| finish
| startDetached (program : QString).

#[global] Instance OtherCall_eq_dec : EqDecision OtherCall.
Proof. unfold EqDecision, Decision. repeat decide equality. Defined.

(** The macros and constants these functions use besides [Definitions],
    and the platform the build is for. *)
Class Build := {
  APP_NAME : QString;
  APP_LONG_NAME : QString;
  APP_ICON_PATH : QString;
  General_FirstRunDef : QVariant;   (* second half of SETTING(General::FirstRun) *)
  Q_OS_WIN : bool
}.

(** The outside, for all of the functions: the toolkit as before, the
    address [new SystemTrayIcon] returns, the answer of
    [QProcess::startDetached], [applicationFilePath()] and
    [QDir::toNativeSeparators]. *)
Record Environment := {
  toolkit : Toolkit;
  new_SystemTrayIcon_address : list (nat * OtherCall) -> positive;
  startDetached_result : QString -> bool;
  applicationFilePath : QString;
  toNativeSeparators : QString -> QString
}.

Record Process := mkProcess {
  world : World;
  others : list (nat * OtherCall)
}.

Definition P (A : Type) : Type :=
  Environment -> Process -> option (A * Process).

Definition retP {A} (a : A) : P A := fun _ p => Some (a, p).

Definition bindP {A B} (m : P A) (k : A -> P B) : P B :=
  fun env p =>
    match m env p with
    | Some (a, p') => k a env p'
    | None => None
    end.

Declare Scope P_scope.
Delimit Scope P_scope with P.
Notation "'let*' x := m 'in' k" := (bindP m (fun x => k))
  (at level 10, x name, m at level 100, k at level 200) : P_scope.
Notation "m ;;; k" := (bindP m (fun _ => k))
  (at level 100, k at level 200, right associativity) : P_scope.

(** A function of the first kind, run as it is. *)
Definition lift {A} (m : M A) : P A :=
  fun env p =>
    match m (toolkit env) (world p) with
    | Some (a, w') => Some (a, mkProcess w' (others p))
    | None => None
    end.

(** A call of the second kind, answered from the calls of that kind made
    so far. *)
Definition other {A} (c : OtherCall)
    (answer : Environment -> list (nat * OtherCall) -> A) : P A :=
  fun env p =>
    Some (answer env (others p),
          mkProcess (world p)
            (others p ++ [(length (calls (world p)), c)])).

Definition other_ (c : OtherCall) : P unit := other c (fun _ _ => tt).

Definition set_m_settings (s : gmap (string * string) QVariant)
    (a : Application) : Application :=
  mkApplication (arguments a) (quitOnLastWindowClosed a) s
    (m_mainForm a) (m_trayIcon a) (m_shouldRestart a) (m_isQuitting a).

(** Modelled from the spec: [Settings::setValue(section, key, value)], of
    the settings class that is not among the sources: the counterpart of
    [value], it stores [v] under the group and key. *)
Definition setValue (section key : QString) (v : QVariant) : P unit :=
  bindP (other_ (Settings_setValue section key v)) (fun _ =>
  lift (assign (fun a =>
    set_m_settings (<[(section, key) := v]> (m_settings a)) a))).

Section ApplicationCppRest.
Context `{Definitions} `{Build}.
Local Open Scope P_scope.

(** [Application::isFirstRun() const]. *)
Definition isFirstRun_any : M bool :=
  bind (value GROUP_General General_FirstRun General_FirstRunDef)
    (fun v => ret (toBool v)).

(** [Application::eliminateFirstRun()]. *)
Definition eliminateFirstRun_any : P unit :=
  setValue GROUP_General General_FirstRun (VBool false).

(** [Application::eliminateFirstRun(const QString& version)]. *)
Definition eliminateFirstRun (version : QString) : P unit :=
  setValue GROUP_General (General_FirstRun ++ "_" ++ version) (VBool false).

(** [Application::isQuitting() const]. *)
Definition isQuitting : M bool := this m_isQuitting.

(** [Application::setMainForm]. *)
Definition setMainForm (main_form : pointer) : M unit :=
  assign (fun a =>
    mkApplication (arguments a) (quitOnLastWindowClosed a) (m_settings a)
      main_form (m_trayIcon a) (m_shouldRestart a) (m_isQuitting a)).

(** [Application::trayIcon].  The menu is a [TrayIconMenu] on Windows and
    a [QMenu] elsewhere.  The actions put into it are members of
    [m_mainForm->m_ui], so that building their list goes through
    [m_mainForm]. *)
Definition trayIcon : P pointer :=
  let* tray := lift (this m_trayIcon) in
  (if is_null tray then
     other_ (new_QMenu Q_OS_WIN APP_NAME);;;
     other_ connect_triggered;;;
     other_ new_QAction;;;
     other_ (setSeparator true);;;
     lift (through m_mainForm (ret tt));;;
     other_ addActions;;;
     let* icon := other (new_SystemTrayIcon APP_ICON_PATH)
                    new_SystemTrayIcon_address in
     lift (assign (set_m_trayIcon (ptr icon)));;;
     other_ (setToolTip APP_LONG_NAME)
   else
     retP tt);;;
  lift (this m_trayIcon).

(** [Application::showTrayIcon]. *)
Definition showTrayIcon : P unit :=
  let* icon := trayIcon in
  if is_null icon then lift abort else other_ SystemTrayIcon_show.

(** [Application::onAboutToQuit].  What [startDetached] answers only
    selects the line written to the debug output. *)
Definition onAboutToQuit : P unit :=
  eliminateFirstRun_any;;;
  eliminateFirstRun APP_VERSION;;;
  other_ processEvents;;;
  (if Q_OS_WIN then other_ removeTrolltechJunkRegistryKeys else retP tt);;;
  let* form := lift (this m_mainForm) in
  (if negb (is_null form) then other_ FormMain_saveSize else retP tt);;;
  let* should_restart := lift (this m_shouldRestart) in
  if should_restart : bool then
    other_ finish;;;
    let* program := (fun env p =>
      Some ((QUOTE ++ toNativeSeparators env (applicationFilePath env)
             ++ QUOTE)%string, p)) in
    let* started := other (startDetached program)
                      (fun env _ => startDetached_result env program) in
    retP tt
  else
    retP tt.

End ApplicationCppRest.

(** The call [c] is in a log of calls of the second kind. *)
Definition made (c : OtherCall) (log : list (nat * OtherCall)) : Prop :=
  exists n, (n, c) ∈ log.

(** ** The separator inside a token *)

(** [sep] does not begin anywhere inside [t], also not when [t] is
    followed by [sep].  For a separator of one character: the character
    does not occur in [t]. *)
Fixpoint separator_free (sep t : QString) : bool :=
  match t with
  | EmptyString => true
  | String _ t' =>
      negb (String.prefix sep (t ++ sep)) && separator_free sep t'
  end.

(** How often the character [c] occurs in [s]. *)
Fixpoint occurrences (c : Ascii.ascii) (s : QString) : nat :=
  match s with
  | EmptyString => 0
  | String c' s' =>
      (if Ascii.eqb c c' then 1 else 0) + occurrences c s'
  end.

(** One choice of the further macros: a build for a platform other than
    Windows. *)
Definition sample_build : Build := {|
  APP_NAME := "Textosaurus";
  APP_LONG_NAME := "Textosaurus 0.9.13";
  APP_ICON_PATH := ":/graphics/textosaurus.png";
  General_FirstRunDef := VBool true;
  Q_OS_WIN := false
|}.

(** An environment around [sample_toolkit]: the tray icon is allocated at
    address 7 and the executable is /usr/bin/textosaurus. *)
Definition sample_environment (closes : bool) : Environment := {|
  toolkit := sample_toolkit closes true true;
  new_SystemTrayIcon_address := fun _ => 7%positive;
  startDetached_result := fun _ => true;
  applicationFilePath := "/usr/bin/textosaurus";
  toNativeSeparators := fun path => path
|}.

(** A toolkit whose main form refuses to close the first time it is asked
    and closes from the second time on, and an environment around it. *)
Definition hesitant_toolkit : Toolkit := {|
  sendMessage_result := fun _ _ => false;
  FormMain_close_result := fun log => bool_decide (FormMain_close ∈ log);
  allowsInteraction_result := fun _ => true;
  dataSaveRequested_ok := fun _ => true
|}.

Definition hesitant_environment : Environment := {|
  toolkit := hesitant_toolkit;
  new_SystemTrayIcon_address := fun _ => 7%positive;
  startDetached_result := fun _ => true;
  applicationFilePath := "/usr/bin/textosaurus";
  toNativeSeparators := fun path => path
|}.

(** * Properties *)

Local Open Scope list_scope.

(** ** The string functions on concrete inputs *)

Example split_newline : split LF ("a" ++ LF ++ "b" ++ LF)%string = ["a"; "b"; ""].
Proof. reflexivity. Qed.

Example split_two_chars : split "::" "a::b:c::::" = ["a"; "b:c"; ""; ""].
Proof. reflexivity. Qed.

Example split_empty_sep : split "" "ab" = [""; "a"; "b"; ""].
Proof. reflexivity. Qed.

Example split_empty_source : split "," "" = [""].
Proof. reflexivity. Qed.

Example join_three : join ", " ["a"; "b"; "c"] = "a, b, c".
Proof. reflexivity. Qed.

Example toBool_of_text :
  map toBool [VString "False"; VString "0"; VString ""; VString "yes";
              VInt 0; VInt 7; Invalid; VBool true]
  = [false; false; false; true; false; true; false; true].
Proof. reflexivity. Qed.

Lemma contains_true (l : QStringList) (str : QString) :
  contains l str = true <-> str ∈ l.
Proof. unfold contains. rewrite bool_decide_eq_true. reflexivity. Qed.

Lemma contains_false (l : QStringList) (str : QString) :
  contains l str = false <-> str ∉ l.
Proof. unfold contains. rewrite bool_decide_eq_false. reflexivity. Qed.

(** Membership in a log that is written out: splits it into the
    equations with each of its entries. *)
Ltac log_cases H :=
  repeat (apply elem_of_cons in H as [H | H]);
  try (apply elem_of_nil in H; destruct H).

(** A call that differs from every entry of a written-out log is not in
    it. *)
Ltac not_in_log :=
  unfold not; intros;
  match goal with
  | Hin : _ ∈ _ |- _ => log_cases Hin; discriminate
  | Hin : list_elem_of _ _ |- _ => log_cases Hin; discriminate
  end.

(** A call that is an entry of a written-out log is in it. *)
Ltac in_log :=
  repeat first [ apply list_elem_of_here | apply list_elem_of_further ].

Lemma restartHint_app (h : RestartHint) (l1 l2 : list Call) :
  restartHint h (l1 ++ l2) = restartHint (restartHint h l1) l2.
Proof.
  revert h. induction l1 as [| c l1 IH]; intros h; [reflexivity |].
  destruct c; simpl; apply IH.
Qed.

(** ** application.cpp *)

Section ApplicationCppFacts.
Context `{Definitions}.

(** What a run of [quitApplication] returns, case by case. *)
Lemma quitApplication_run (tk : Toolkit) (w : World) :
  quitApplication tk w =
  Some (tt,
    match m_mainForm (app w) with
    | nullptr => w
    | ptr _ =>
        if FormMain_close_result tk (calls w)
        then mkWorld (set_m_isQuitting true (app w))
               (calls w ++ [FormMain_close; QCoreApplication_quit])
        else mkWorld
               (set_m_shouldRestart false
                  (set_m_isQuitting false (set_m_isQuitting true (app w))))
               (calls w ++ [FormMain_close])
    end).
Proof.
  destruct w as [a log]. unfold quitApplication, bind, this, assign, call_, call.
  simpl. destruct (m_mainForm a); simpl; [reflexivity |].
  destruct (FormMain_close_result tk log); simpl; [| reflexivity].
  rewrite <- app_assoc. reflexivity.
Qed.

(** C1 (as amended): [isRunning] sends exactly one message and returns
    what the peer answered.  The message is the is-running flag followed
    by the command-line arguments without the program name, and nothing
    else, joined with the arguments-list separator: the list that is
    joined has those elements, in that order, and no more. *)
Theorem isRunning_sends_flag_and_arguments (tk : Toolkit) (w : World) :
  let message :=
    join ARGUMENTS_LIST_SEPARATOR
      (APP_IS_RUNNING :: drop 1 (arguments (app w))) in
  isRunning tk w =
    Some (sendMessage_result tk (calls w) message,
          mkWorld (app w) (calls w ++ [sendMessage message]))
  /\ isRunning_message (app w) = message
  /\ isRunning_tokens (app w) = APP_IS_RUNNING :: drop 1 (arguments (app w))
  /\ length (isRunning_tokens (app w)) = S (length (arguments (app w)) - 1).
Proof.
  cbv zeta. split; [reflexivity |]. split; [reflexivity |].
  split; [reflexivity |].
  unfold isRunning_tokens, mid. rewrite length_app, length_drop. reflexivity.
Qed.

(** C7: [quitApplication] and the quitting and restart flags.  Without a
    main form nothing changes; with a main form that refuses to close,
    both [m_isQuitting] and [m_shouldRestart] are false afterwards and
    [quit] is not called; and [quit] is called exactly when there is a
    main form and it closes. *)
Theorem quitApplication_flags (tk : Toolkit) (w : World) :
  (m_mainForm (app w) = nullptr -> quitApplication tk w = Some (tt, w))
  /\ (m_mainForm (app w) <> nullptr ->
      FormMain_close_result tk (calls w) = false ->
      exists w',
        quitApplication tk w = Some (tt, w')
        /\ m_isQuitting (app w') = false
        /\ m_shouldRestart (app w') = false
        /\ calls w' = calls w ++ [FormMain_close])
  /\ (exists w' new,
        quitApplication tk w = Some (tt, w')
        /\ calls w' = calls w ++ new
        /\ (QCoreApplication_quit ∈ new <->
            m_mainForm (app w) <> nullptr
            /\ FormMain_close_result tk (calls w) = true)).
Proof.
  rewrite quitApplication_run. split; [| split].
  - intros ->. reflexivity.
  - intros Hform Hclose. rewrite Hclose.
    destruct (m_mainForm (app w)); [congruence |]. eauto.
  - destruct (m_mainForm (app w)) as [| addr].
    + exists w, []. split; [reflexivity |]. split.
      * rewrite app_nil_r. reflexivity.
      * split; [intros Hin; log_cases Hin | intros [Hnull _]; congruence].
    + destruct (FormMain_close_result tk (calls w)) eqn:Hclose.
      * eexists _, _. split; [reflexivity |]. split; [reflexivity |].
        split; [intros _; split; congruence |].
        intros _. apply elem_of_cons. right. apply elem_of_cons. left. reflexivity.
      * eexists _, _. split; [reflexivity |]. split; [reflexivity |].
        split; [intros Hin; log_cases Hin; discriminate | intros [_ Hc]; discriminate].
Qed.

(** C2 (as amended): [processExecutionMessage] splits the message on the
    arguments-list separator and decides by token membership.  With the
    quit-instance token in the list it runs [quitApplication], whether
    or not the is-running token is there too: no files are loaded, and
    [quit] is called exactly when there is a main form and it closes.
    Otherwise, with the is-running token in the list, the token list
    goes to [loadFilesFromArgs] and the main form, which must exist, is
    displayed.  Otherwise nothing happens. *)
Theorem processExecutionMessage_decides_by_tokens
    (message : QString) (tk : Toolkit) (w : World) :
  let messages := split ARGUMENTS_LIST_SEPARATOR message in
  (APP_QUIT_INSTANCE ∈ messages ->
     processExecutionMessage message tk w = quitApplication tk w
     /\ (exists w' new,
          processExecutionMessage message tk w = Some (tt, w')
          /\ calls w' = calls w ++ new
          /\ (forall args, loadFilesFromArgs args ∉ new)
          /\ (FormMain_display ∉ new)
          /\ (QCoreApplication_quit ∈ new <->
              m_mainForm (app w) <> nullptr
              /\ FormMain_close_result tk (calls w) = true)))
  /\ (APP_QUIT_INSTANCE ∉ messages -> APP_IS_RUNNING ∈ messages ->
      m_mainForm (app w) <> nullptr ->
      processExecutionMessage message tk w =
        Some (tt, mkWorld (app w)
                    (calls w ++ [loadFilesFromArgs messages; FormMain_display])))
  /\ (APP_QUIT_INSTANCE ∉ messages -> APP_IS_RUNNING ∉ messages ->
      processExecutionMessage message tk w = Some (tt, w)).
Proof.
  intros messages. unfold processExecutionMessage. fold messages.
  split; [| split].
  - intros Hquit%contains_true. rewrite Hquit. split; [reflexivity |].
    rewrite quitApplication_run.
    destruct (m_mainForm (app w)) as [| addr].
    + exists w, []. rewrite app_nil_r.
      split; [reflexivity |]. split; [reflexivity |].
      split; [not_in_log |]. split; [not_in_log |].
      split; [not_in_log | intros [Hnull _]; congruence].
    + destruct (FormMain_close_result tk (calls w)).
      * eexists _, _. split; [reflexivity |]. split; [reflexivity |].
        split; [not_in_log |]. split; [not_in_log |].
        split; [intros _; split; congruence | intros _; in_log].
      * eexists _, _. split; [reflexivity |]. split; [reflexivity |].
        split; [not_in_log |]. split; [not_in_log |].
        split; [not_in_log | intros [_ Hc]; discriminate].
  - intros Hquit%contains_false Hrun%contains_true Hform.
    rewrite Hquit, Hrun. destruct w as [a log]. simpl in Hform.
    cbv [bind through this call_ call abort]. simpl.
    destruct (m_mainForm a); [congruence |].
    simpl. rewrite <- app_assoc. reflexivity.
  - intros Hquit%contains_false Hrun%contains_false.
    rewrite Hquit, Hrun. reflexivity.
Qed.

(** The calls of a run of [onCommitData], in order. *)
Lemma onCommitData_run (tk : Toolkit) (w : World) :
  let allowed :=
    allowsInteraction_result tk (calls w ++ [setRestartHint RestartNever]) in
  let ok :=
    dataSaveRequested_ok tk
      (calls w ++ [setRestartHint RestartNever; allowsInteraction]) in
  onCommitData tk w =
  Some (tt, mkWorld (app w)
    (calls w ++
     if allowed then
       [setRestartHint RestartNever; allowsInteraction;
        dataSaveRequested; QSessionManager_release]
       ++ (if ok then [] else [QSessionManager_cancel])
     else [setRestartHint RestartNever; allowsInteraction])).
Proof.
  destruct w as [a log]. cbv [onCommitData bind call_ call ret]. simpl.
  rewrite <- !app_assoc. simpl.
  destruct (allowsInteraction_result tk _); [| reflexivity].
  simpl. rewrite <- !app_assoc. simpl.
  destruct (dataSaveRequested_ok tk _); simpl; [reflexivity |].
  rewrite <- !app_assoc. reflexivity.
Qed.

(** C4: [onCommitData].  When the session manager allows interaction,
    the data-save request is emitted, and the shutdown is cancelled,
    after that request, if and only if the request reports that not all
    documents were saved.  When interaction is not allowed there is
    neither a save request nor a cancellation.  In every case the
    restart hint ends up as never-restart. *)
Theorem onCommitData_saves_or_cancels (tk : Toolkit) (w : World) :
  let allowed :=
    allowsInteraction_result tk (calls w ++ [setRestartHint RestartNever]) in
  let ok :=
    dataSaveRequested_ok tk
      (calls w ++ [setRestartHint RestartNever; allowsInteraction]) in
  exists new,
    onCommitData tk w = Some (tt, mkWorld (app w) (calls w ++ new))
    /\ (allowed = true ->
        dataSaveRequested ∈ new
        /\ (QSessionManager_cancel ∈ new <-> ok = false)
        /\ (ok = false ->
            called_before dataSaveRequested QSessionManager_cancel new))
    /\ (allowed = false ->
        (dataSaveRequested ∉ new) /\ (QSessionManager_cancel ∉ new))
    /\ (forall h, restartHint h (calls w ++ new) = RestartNever).
Proof.
  intros allowed ok. rewrite onCommitData_run. fold allowed ok.
  eexists. split; [reflexivity |].
  destruct allowed; [destruct ok |]; simpl.
  - split; [| split; [discriminate |]].
    + intros _. split; [in_log |].
      split; [split; [not_in_log | discriminate] | discriminate].
    + intros h. rewrite restartHint_app. reflexivity.
  - split; [| split; [discriminate |]].
    + intros _. split; [in_log |].
      split; [split; [reflexivity | intros _; in_log] |].
      intros _.
      exists [setRestartHint RestartNever; allowsInteraction],
        [QSessionManager_release], []. reflexivity.
    + intros h. rewrite restartHint_app. reflexivity.
  - split; [discriminate |]. split.
    + intros _. split; not_in_log.
    + intros h. rewrite restartHint_app. reflexivity.
Qed.

(** C8: [isFirstRun(version)].  For a version other than the compiled-in
    one it returns false and the settings store is not consulted.  For
    the compiled-in version it reads the per-version first-run setting
    once, with default true, so that the answer is true when the
    setting is absent. *)
Theorem isFirstRun_reads_only_own_version
    (version : QString) (tk : Toolkit) (w : World) :
  let key := (General_FirstRun ++ "_" ++ version)%string in
  (version <> APP_VERSION -> isFirstRun version tk w = Some (false, w))
  /\ (version = APP_VERSION ->
      isFirstRun version tk w =
        Some (toBool (default (VBool true)
                        (m_settings (app w) !! (GROUP_General, key))),
              mkWorld (app w)
                (calls w ++ [Settings_value GROUP_General key (VBool true)]))
      /\ (m_settings (app w) !! (GROUP_General, key) = None ->
          isFirstRun version tk w =
            Some (true,
                  mkWorld (app w)
                    (calls w ++ [Settings_value GROUP_General key (VBool true)])))).
Proof.
  intros key. unfold isFirstRun. split.
  - intros Hne%String.eqb_neq. rewrite Hne. reflexivity.
  - intros Heq%String.eqb_eq. rewrite Heq. fold key.
    unfold bind, value, ret. split; [reflexivity |].
    intros ->. reflexivity.
Qed.

(** What a run of [deleteTrayIcon] returns, case by case. *)
Lemma deleteTrayIcon_run (tk : Toolkit) (w : World) :
  deleteTrayIcon tk w =
  match m_trayIcon (app w) with
  | nullptr => Some (tt, w)
  | ptr _ =>
      match m_mainForm (app w) with
      | nullptr => None
      | ptr _ =>
          Some (tt,
            mkWorld
              (set_quitOnLastWindowClosed true
                 (set_m_trayIcon nullptr (app w)))
              (calls w ++ [FormMain_display; delete_SystemTrayIcon;
                           setQuitOnLastWindowClosed true]))
      end
  end.
Proof.
  destruct w as [[args q store form tray r i] log].
  destruct tray, form;
    cbv [deleteTrayIcon QGuiApplication_setQuitOnLastWindowClosed
         bind through this assign call_ call ret abort];
    simpl; rewrite <- ?app_assoc; reflexivity.
Qed.

(** C9 (as amended): [deleteTrayIcon] is idempotent.  With a null tray
    icon it changes nothing.  With a tray icon, and with the main form
    set, which it raises first through [m_mainForm], it leaves the
    tray-icon pointer null and quit-on-last-window-closed enabled.  Two
    calls in a row come to the same as one. *)
Theorem deleteTrayIcon_idempotent (tk : Toolkit) (w : World) :
  (m_trayIcon (app w) = nullptr -> deleteTrayIcon tk w = Some (tt, w))
  /\ (m_trayIcon (app w) <> nullptr -> m_mainForm (app w) <> nullptr ->
      exists w',
        deleteTrayIcon tk w = Some (tt, w')
        /\ m_trayIcon (app w') = nullptr
        /\ quitOnLastWindowClosed (app w') = true)
  /\ (deleteTrayIcon;;; deleteTrayIcon) tk w = deleteTrayIcon tk w.
Proof.
  split; [| split].
  - intros Htray. rewrite deleteTrayIcon_run, Htray. reflexivity.
  - intros Htray Hform. rewrite deleteTrayIcon_run.
    destruct (m_trayIcon (app w)); [congruence |].
    destruct (m_mainForm (app w)); [congruence |]. eauto.
  - unfold bind. rewrite deleteTrayIcon_run.
    destruct (m_trayIcon (app w)) eqn:Htray.
    + rewrite deleteTrayIcon_run, Htray. reflexivity.
    + destruct (m_mainForm (app w)); [reflexivity |].
      rewrite deleteTrayIcon_run. reflexivity.
Qed.

End ApplicationCppFacts.

(** ** applicationexception.cpp *)

Lemma perform_all_run (os : list ApplicationException.operation)
    (e : ApplicationException.t) :
  ApplicationException.perform_all os e =
  (map (fun _ => ApplicationException.m_message e) os, e).
Proof.
  induction os as [| o os IH]; simpl; [reflexivity |].
  destruct o. simpl. rewrite IH. reflexivity.
Qed.

(** C3: an [ApplicationException] constructed with message [s] answers
    [s] to [message()], and whatever series of member functions is then
    called on it, each call answers [s] and the stored message is still
    [s] at the end. *)
Theorem ApplicationException_message_is_fixed
    (s : QString) (os : list ApplicationException.operation) :
  let e := ApplicationException.ApplicationException s in
  fst (ApplicationException.message e) = s
  /\ snd (ApplicationException.message e) = e
  /\ Forall (eq s) (fst (ApplicationException.perform_all os e))
  /\ length (fst (ApplicationException.perform_all os e)) = length os
  /\ ApplicationException.m_message
       (snd (ApplicationException.perform_all os e)) = s.
Proof.
  intros e. rewrite perform_all_run. simpl.
  split; [reflexivity |]. split; [reflexivity |].
  split; [| split; [apply length_map | reflexivity]].
  apply Forall_forall. intros x Hin. apply list_elem_of_fmap in Hin as [_ [-> _]].
  reflexivity.
Qed.

(** ** dockwidget.h *)

(** C5: [switchVisibility] toggles the visibility of the dock widget, a
    visible one becomes hidden and a hidden one visible; and a subclass
    of which objects can be made supplies [initialArea],
    [initiallyVisible] and [initialWidth]. *)
Theorem DockWidget_switchVisibility_toggles
    (w : DockWidget.t) (overrides : list DockWidget.member) :
  DockWidget.visible (DockWidget.switchVisibility w)
    = negb (DockWidget.visible w)
  /\ (DockWidget.visible w = true ->
      DockWidget.visible (DockWidget.switchVisibility w) = false)
  /\ (DockWidget.visible w = false ->
      DockWidget.visible (DockWidget.switchVisibility w) = true)
  /\ (DockWidget.concrete overrides = true ->
      DockWidget.initialArea ∈ overrides
      /\ DockWidget.initiallyVisible ∈ overrides
      /\ DockWidget.initialWidth ∈ overrides).
Proof.
  split; [reflexivity |]. split; [| split].
  - simpl. intros ->. reflexivity.
  - simpl. intros ->. reflexivity.
  - unfold DockWidget.concrete. rewrite forallb_forall. intros Hall.
    assert (Hpure : forall m, DockWidget.pure_virtual m = true -> m ∈ overrides).
    { intros m Hm. specialize (Hall m). rewrite Hm in Hall. simpl in Hall.
      apply (proj1 (bool_decide_eq_true _)). apply Hall.
      destruct m; simpl; tauto. }
    repeat split; apply Hpure; reflexivity.
Qed.

(** ** markdowntextbrowser.h *)

Lemma loadResources_run (rs : MarkdownTextBrowser.Resources)
    (requests : list (Z * string)) (b : MarkdownTextBrowser.t) :
  MarkdownTextBrowser.loadResources rs requests b =
  (map (fun r => fst (MarkdownTextBrowser.loadResource rs r.1 r.2 b)) requests,
   b).
Proof.
  induction requests as [| [type name] requests IH]; simpl; [reflexivity |].
  rewrite IH. reflexivity.
Qed.

(** C6: [setMarkdownDocument] stores the base folder it is given, the
    [loadResource] requests that follow leave it stored, and each of them
    that asks for a relative URL gets the resource at that URL resolved
    against the stored base folder. *)
Theorem MarkdownTextBrowser_resolves_against_base_folder
    (rs : MarkdownTextBrowser.Resources) (base_folder html_contents : QString)
    (b : MarkdownTextBrowser.t) (requests : list (Z * string)) :
  let b0 :=
    MarkdownTextBrowser.setMarkdownDocument base_folder html_contents b in
  let served := MarkdownTextBrowser.loadResources rs requests b0 in
  MarkdownTextBrowser.m_documentBaseFolder b0 = base_folder
  /\ MarkdownTextBrowser.m_documentBaseFolder (snd served) = base_folder
  /\ (forall i type name,
        requests !! i = Some (type, name) ->
        MarkdownTextBrowser.isRelative rs name = true ->
        fst served !! i =
          Some (MarkdownTextBrowser.load rs type
                  (MarkdownTextBrowser.resolved rs base_folder name))).
Proof.
  intros b0 served. subst served. rewrite loadResources_run. simpl.
  split; [reflexivity |]. split; [reflexivity |].
  intros i type name Hreq Hrel.
  rewrite list_lookup_fmap, Hreq. simpl. rewrite Hrel. reflexivity.
Qed.

(** ** Runs on concrete inputs *)

Section Runs.
#[local] Existing Instance sample_definitions.

Let started : World := mkWorld sample_application [].
Let with_tray : World :=
  mkWorld (set_m_trayIcon (ptr 2) sample_application) [].
Let without_form : World :=
  mkWorld (mkApplication ["textosaurus"] true ∅ nullptr nullptr true false) [].

(** C1, as the specification words it, fails: started as
    [textosaurus notes.txt], the application sends the is-running flag
    and [notes.txt] and nothing else.  The quit-instance flag is not
    among the tokens sent, the receiver does not find it when it splits
    the message, and the message differs from the one with a
    quit-instance flag in it. *)
Lemma isRunning_sends_no_quit_flag :
  isRunning (sample_toolkit true true true) started =
    Some (false,
          mkWorld sample_application
            [sendMessage ("app_is_running" ++ LF ++ "notes.txt")%string])
  /\ isRunning_tokens sample_application = ["app_is_running"; "notes.txt"]
  /\ (APP_QUIT_INSTANCE ∉ isRunning_tokens sample_application)
  /\ contains
       (split ARGUMENTS_LIST_SEPARATOR (isRunning_message sample_application))
       APP_QUIT_INSTANCE = false
  /\ isRunning_message sample_application
     <> spec_isRunning_message sample_application.
Proof.
  split; [reflexivity |]. split; [reflexivity |].
  split; [vm_compute; not_in_log |].
  split; [reflexivity |]. vm_compute. discriminate.
Qed.

(** C2, as worded, fails: a message that carries the quit-instance token
    does not make the application quit when the main form refuses to
    close (only [close] is called, [quit] is not), nor when there is no
    main form (nothing is called at all). *)
Lemma processExecutionMessage_quit_token_without_quit :
  (APP_QUIT_INSTANCE ∈ split ARGUMENTS_LIST_SEPARATOR "-q")
  /\ processExecutionMessage "-q" (sample_toolkit false true true) started
     = Some (tt, mkWorld sample_application [FormMain_close])
  /\ (QCoreApplication_quit ∉ [FormMain_close])
  /\ processExecutionMessage "-q" (sample_toolkit true true true) without_form
     = Some (tt, without_form).
Proof.
  split; [vm_compute; in_log |]. split; [reflexivity |].
  split; [not_in_log | reflexivity].
Qed.

(** The message of a second instance, received by the first: the files
    named on its command line are loaded and the main form is shown. *)
Example second_instance_forwards_arguments :
  processExecutionMessage (isRunning_message sample_application)
    (sample_toolkit true true true) started
  = Some (tt, mkWorld sample_application
                [loadFilesFromArgs ["app_is_running"; "notes.txt"];
                 FormMain_display]).
Proof. reflexivity. Qed.

Lemma processExecutionMessage_decides_by_tokens_witness :
  (exists w',
     processExecutionMessage ("app_is_running" ++ LF ++ "-q")%string
       (sample_toolkit true true true) started = Some (tt, w')
     /\ QCoreApplication_quit ∈ calls w')
  /\ processExecutionMessage ("app_is_running" ++ LF ++ "notes.txt")%string
       (sample_toolkit true true true) started
     = Some (tt, mkWorld sample_application
                   [loadFilesFromArgs ["app_is_running"; "notes.txt"];
                    FormMain_display])
  /\ processExecutionMessage "notes.txt" (sample_toolkit true true true) started
     = Some (tt, started).
Proof.
  split; [| split].
  - destruct (proj1 (processExecutionMessage_decides_by_tokens
                ("app_is_running" ++ LF ++ "-q")%string
                (sample_toolkit true true true) started))
      as (_ & w' & new & Hrun & Hcalls & _ & _ & Hquit).
    + vm_compute. in_log.
    + exists w'. split; [exact Hrun |]. rewrite Hcalls. simpl.
      apply Hquit. split; [discriminate | reflexivity].
  - refine (proj1 (proj2 (processExecutionMessage_decides_by_tokens
             ("app_is_running" ++ LF ++ "notes.txt")%string
             (sample_toolkit true true true) started)) _ _ _).
    + vm_compute. not_in_log.
    + vm_compute. in_log.
    + discriminate.
  - apply (proj2 (proj2 (processExecutionMessage_decides_by_tokens
             "notes.txt" (sample_toolkit true true true) started))).
    + vm_compute. not_in_log.
    + vm_compute. not_in_log.
Defined.

Lemma onCommitData_saves_or_cancels_witness :
  (exists new,
     onCommitData (sample_toolkit true true false) started
       = Some (tt, mkWorld sample_application new)
     /\ called_before dataSaveRequested QSessionManager_cancel new)
  /\ (exists new,
        onCommitData (sample_toolkit true false false) started
          = Some (tt, mkWorld sample_application new)
        /\ dataSaveRequested ∉ new).
Proof.
  split.
  - destruct (onCommitData_saves_or_cancels
                (sample_toolkit true true false) started)
      as (new & Hrun & Hallowed & _ & _).
    exists new. split; [exact Hrun |].
    destruct (Hallowed eq_refl) as (_ & _ & Hcancel).
    exact (Hcancel eq_refl).
  - destruct (onCommitData_saves_or_cancels
                (sample_toolkit true false false) started)
      as (new & Hrun & _ & Hrefused & _).
    exists new. split; [exact Hrun |].
    exact (proj1 (Hrefused eq_refl)).
Defined.

Lemma quitApplication_flags_witness :
  quitApplication (sample_toolkit true true true) without_form
    = Some (tt, without_form)
  /\ (exists w',
        restart (sample_toolkit false true true) started = Some (tt, w')
        /\ m_isQuitting (app w') = false
        /\ m_shouldRestart (app w') = false).
Proof.
  split.
  - apply (proj1 (quitApplication_flags
             (sample_toolkit true true true) without_form)).
    reflexivity.
  - destruct (proj1 (proj2 (quitApplication_flags
                (sample_toolkit false true true)
                (mkWorld (set_m_shouldRestart true sample_application) []))))
      as (w' & Hrun & Hquitting & Hrestart & _).
    + discriminate.
    + reflexivity.
    + exists w'. split; [exact Hrun |]. split; assumption.
Defined.

Lemma isFirstRun_reads_only_own_version_witness :
  isFirstRun "0.9.12" (sample_toolkit true true true) started
    = Some (false, started)
  /\ isFirstRun "0.9.13" (sample_toolkit true true true) started
     = Some (true,
             mkWorld sample_application
               [Settings_value "main" "first_run_0.9.13" (VBool true)]).
Proof.
  split.
  - apply (proj1 (isFirstRun_reads_only_own_version "0.9.12"
             (sample_toolkit true true true) started)).
    discriminate.
  - destruct (proj2 (isFirstRun_reads_only_own_version "0.9.13"
                (sample_toolkit true true true) started))
      as [_ Habsent]; [reflexivity |].
    apply Habsent. reflexivity.
Defined.

(** C9, as worded, fails: with a tray icon and no main form,
    [deleteTrayIcon] goes through the null [m_mainForm] before it comes to
    the tray icon, so that no run leaves the tray-icon pointer null. *)
Lemma deleteTrayIcon_without_main_form :
  let a := mkApplication ["textosaurus"] false ∅ nullptr (ptr 2) false false in
  m_trayIcon a <> nullptr
  /\ deleteTrayIcon (sample_toolkit true true true) (mkWorld a []) = None
  /\ ~ (exists w',
          deleteTrayIcon (sample_toolkit true true true) (mkWorld a [])
            = Some (tt, w')
          /\ m_trayIcon (app w') = nullptr
          /\ quitOnLastWindowClosed (app w') = true).
Proof.
  split; [discriminate |]. split; [reflexivity |].
  intros (w' & Hrun & _). discriminate.
Qed.

Lemma deleteTrayIcon_idempotent_witness :
  deleteTrayIcon (sample_toolkit true true true) started = Some (tt, started)
  /\ (exists w',
        deleteTrayIcon (sample_toolkit true true true) with_tray
          = Some (tt, w')
        /\ m_trayIcon (app w') = nullptr
        /\ quitOnLastWindowClosed (app w') = true).
Proof.
  split.
  - apply (proj1 (deleteTrayIcon_idempotent
             (sample_toolkit true true true) started)).
    reflexivity.
  - apply (proj1 (proj2 (deleteTrayIcon_idempotent
             (sample_toolkit true true true) with_tray)));
      discriminate.
Defined.

End Runs.

Lemma DockWidget_switchVisibility_toggles_witness :
  DockWidget.visible
    (DockWidget.switchVisibility (DockWidget.mk true nullptr)) = false
  /\ DockWidget.visible
       (DockWidget.switchVisibility (DockWidget.mk false nullptr)) = true
  /\ DockWidget.initialWidth
       ∈ [DockWidget.initialArea; DockWidget.initiallyVisible;
          DockWidget.initialWidth; DockWidget.load].
Proof.
  split; [| split].
  - apply (proj1 (proj2 (DockWidget_switchVisibility_toggles
             (DockWidget.mk true nullptr) []))).
    reflexivity.
  - apply (proj1 (proj2 (proj2 (DockWidget_switchVisibility_toggles
             (DockWidget.mk false nullptr) [])))).
    reflexivity.
  - apply (proj2 (proj2 (proj2 (DockWidget_switchVisibility_toggles
             (DockWidget.mk true nullptr)
             [DockWidget.initialArea; DockWidget.initiallyVisible;
              DockWidget.initialWidth; DockWidget.load])))).
    reflexivity.
Defined.

Lemma MarkdownTextBrowser_resolves_against_base_folder_witness :
  fst (MarkdownTextBrowser.loadResources sample_resources
         [(2%Z, "/usr/share/logo.png"); (2%Z, "img/a.png")]
         (MarkdownTextBrowser.setMarkdownDocument "/home/u/doc" "<p/>"
            (MarkdownTextBrowser.mk "" ""))) !! 1%nat
  = Some (VString "/home/u/doc/img/a.png").
Proof.
  apply (proj2 (proj2 (MarkdownTextBrowser_resolves_against_base_folder
           sample_resources "/home/u/doc" "<p/>" (MarkdownTextBrowser.mk "" "")
           [(2%Z, "/usr/share/logo.png"); (2%Z, "img/a.png")]))
         1%nat 2%Z "img/a.png"); reflexivity.
Defined.

(** * Further properties of application.cpp *)

(** ** Strings *)

Lemma string_app_cons (c : Ascii.ascii) (s r : string) :
  (String c s ++ r)%string = String c (s ++ r).
Proof. reflexivity. Qed.

Lemma string_app_assoc (s1 s2 s3 : string) :
  ((s1 ++ s2) ++ s3 = s1 ++ s2 ++ s3)%string.
Proof.
  induction s1 as [| c s1 IH]; [reflexivity |].
  rewrite !string_app_cons, IH. reflexivity.
Qed.

Lemma string_app_nil_r (s : string) : (s ++ "" = s)%string.
Proof.
  induction s as [| c s IH]; [reflexivity |].
  rewrite string_app_cons, IH. reflexivity.
Qed.

Lemma string_length_app (s1 s2 : string) :
  String.length (s1 ++ s2) = String.length s1 + String.length s2.
Proof.
  induction s1 as [| c s1 IH]; [reflexivity |].
  rewrite string_app_cons. simpl. rewrite IH. reflexivity.
Qed.

Lemma prefix_app_same (p r : string) : String.prefix p (p ++ r) = true.
Proof.
  induction p as [| c p IH]; [by destruct r |].
  rewrite string_app_cons. simpl.
  destruct (Ascii.ascii_dec c c); [exact IH | congruence].
Qed.

(** Whether [p] begins a string is decided by as many characters of the
    string as [p] has. *)
Lemma prefix_app_long (p x r : string) :
  String.length p <= String.length x ->
  String.prefix p (x ++ r) = String.prefix p x.
Proof.
  revert x. induction p as [| c p IH]; intros x Hlen.
  - by destruct x, r.
  - destruct x as [| d x]; simpl in Hlen; [lia |].
    rewrite string_app_cons. simpl.
    destruct (Ascii.ascii_dec c d); [apply IH; lia | reflexivity].
Qed.

Lemma prefix_app_r (p s r : string) :
  String.prefix p s = true -> String.prefix p (s ++ r) = true.
Proof.
  revert s. induction p as [| c p IH]; intros s Hp.
  - by destruct (s ++ r)%string.
  - destruct s as [| d s]; simpl in Hp; [discriminate |].
    rewrite string_app_cons. simpl.
    destruct (Ascii.ascii_dec c d); [by apply IH | discriminate].
Qed.

Lemma split_scan_skip (sep s1 r cur : string) :
  split_scan sep (String.length s1) cur (s1 ++ r) = split_scan sep 0 cur r.
Proof.
  induction s1 as [| c s1 IH]; [reflexivity |].
  rewrite string_app_cons. simpl. exact IH.
Qed.

(** The scan at a separator: the part read so far is complete. *)
Lemma split_scan_match (a : Ascii.ascii) (sep' r cur : string) :
  split_scan (String a sep') 0 cur (String a sep' ++ r)
  = cur :: split_scan (String a sep') 0 "" r.
Proof.
  rewrite string_app_cons. cbn [split_scan].
  rewrite <- string_app_cons, prefix_app_same.
  replace (String.length (String a sep') - 1) with (String.length sep')
    by (simpl; lia).
  rewrite split_scan_skip. reflexivity.
Qed.

(** The scan reads a separator-free token up to the separator after
    it. *)
Lemma split_scan_token (sep t r cur : string) :
  sep <> "" -> separator_free sep t = true ->
  split_scan sep 0 cur (t ++ sep ++ r)
  = (cur ++ t)%string :: split_scan sep 0 "" r.
Proof.
  intros Hsep. revert cur. induction t as [| c t IH]; intros cur Hfree.
  - rewrite string_app_nil_r.
    destruct sep as [| a sep']; [congruence |].
    apply split_scan_match.
  - cbn [separator_free] in Hfree.
    apply andb_true_iff in Hfree as [Hhere Hrest].
    apply negb_true_iff in Hhere.
    assert (Hp : String.prefix sep (String c (t ++ sep ++ r)) = false).
    { rewrite <- string_app_cons, <- string_app_assoc.
      rewrite prefix_app_long; [exact Hhere |].
      rewrite string_length_app. lia. }
    rewrite string_app_cons. cbn [split_scan]. rewrite Hp.
    rewrite IH by exact Hrest.
    rewrite string_app_assoc. reflexivity.
Qed.

(** The scan reads a separator-free token at the end of the string. *)
Lemma split_scan_last (sep t cur : string) :
  separator_free sep t = true ->
  split_scan sep 0 cur t = [(cur ++ t)%string].
Proof.
  revert cur. induction t as [| c t IH]; intros cur Hfree.
  - rewrite string_app_nil_r. reflexivity.
  - cbn [separator_free] in Hfree.
    apply andb_true_iff in Hfree as [Hhere Hrest].
    apply negb_true_iff in Hhere.
    cbn [split_scan].
    destruct (String.prefix sep (String c t)) eqn:Hp.
    + apply (prefix_app_r _ _ sep) in Hp. congruence.
    + rewrite IH by exact Hrest. rewrite string_app_assoc. reflexivity.
Qed.

(** [split] undoes [join] on a list, not empty, of tokens that are free
    of the separator. *)
Lemma split_join (sep : string) (l : list string) :
  sep <> "" -> l <> [] -> forallb (separator_free sep) l = true ->
  split sep (join sep l) = l.
Proof.
  intros Hsep Hl Hfree.
  assert (Hscan : split_scan sep 0 "" (join sep l) = l).
  { induction l as [| x l IH]; [congruence |].
    simpl in Hfree. apply andb_true_iff in Hfree as [Hx Hrest].
    destruct l as [| y l].
    - simpl. apply split_scan_last. exact Hx.
    - change (join sep (x :: y :: l))
        with (x ++ sep ++ join sep (y :: l))%string.
      rewrite split_scan_token by assumption.
      rewrite IH by (congruence || assumption). reflexivity. }
  destruct sep; [congruence | exact Hscan].
Qed.

Lemma occurrences_app (c : Ascii.ascii) (s1 s2 : string) :
  occurrences c (s1 ++ s2) = occurrences c s1 + occurrences c s2.
Proof.
  induction s1 as [| d s1 IH]; [reflexivity |].
  rewrite string_app_cons. simpl. rewrite IH. lia.
Qed.

(** With a separator of one character, [split] gives one part more than
    the string has separators. *)
Lemma split_scan_length (c : Ascii.ascii) (s cur : string) :
  length (split_scan (String c "") 0 cur s) = S (occurrences c s).
Proof.
  revert cur. induction s as [| d s IH]; intros cur; [reflexivity |].
  cbn [split_scan occurrences String.prefix String.length].
  destruct (Ascii.ascii_dec c d) as [-> | Hne].
  - rewrite Ascii.eqb_refl.
    replace (String.prefix "" s) with true by (by destruct s).
    simpl. rewrite IH. reflexivity.
  - apply Ascii.eqb_neq in Hne. rewrite Hne. simpl. apply IH.
Qed.

Lemma occurrences_join (c : Ascii.ascii) (l : list string) :
  l <> [] ->
  S (occurrences c (join (String c "") l))
  = length l + sum_list (map (occurrences c) l).
Proof.
  induction l as [| x l IH]; [congruence |]. intros _.
  destruct l as [| y l].
  - simpl. lia.
  - change (join (String c "") (x :: y :: l))
      with (x ++ String c "" ++ join (String c "") (y :: l))%string.
    rewrite !occurrences_app.
    assert (Hy : y :: l <> []) by congruence. specialize (IH Hy).
    change (sum_list (map (occurrences c) (x :: y :: l)))
      with (occurrences c x + sum_list (map (occurrences c) (y :: l))).
    change (length (x :: y :: l)) with (S (length (y :: l))).
    simpl occurrences at 2. rewrite Ascii.eqb_refl. lia.
Qed.

(** For a separator of one character, a token is free of it when the
    character does not occur in the token. *)
Lemma separator_free_one_char (c : Ascii.ascii) (t : string) :
  separator_free (String c "") t = true <-> occurrences c t = 0.
Proof.
  induction t as [| d t IH]; [simpl; tauto |].
  cbn [separator_free occurrences]. rewrite string_app_cons.
  cbn [String.prefix].
  replace (String.prefix "" (t ++ String c "")) with true
    by (by destruct (t ++ String c "")%string).
  destruct (Ascii.ascii_dec c d) as [-> | Hne].
  - rewrite Ascii.eqb_refl. simpl. split; [discriminate | lia].
  - apply Ascii.eqb_neq in Hne. rewrite Hne. simpl. exact IH.
Qed.

Lemma sum_list_zero (l : list nat) (x : nat) :
  sum_list l = 0 -> x ∈ l -> x = 0.
Proof.
  induction l as [| y l IH]; intros Hsum Hin; [by apply elem_of_nil in Hin |].
  simpl in Hsum. apply elem_of_cons in Hin as [-> | Hin]; [lia |].
  apply IH; [lia | exact Hin].
Qed.

(** ** Between two instances *)

Section BetweenInstances.
Context `{Definitions}.

(** What a run of [isFirstRun] returns. *)
Lemma isFirstRun_run (version : QString) (tk : Toolkit) (w : World) :
  isFirstRun version tk w =
  if String.eqb version APP_VERSION then
    Some (toBool (default (VBool true)
            (m_settings (app w)
               !! (GROUP_General, (General_FirstRun ++ "_" ++ version)%string))),
          mkWorld (app w)
            (calls w ++ [Settings_value GROUP_General
                           (General_FirstRun ++ "_" ++ version)%string
                           (VBool true)]))
  else Some (false, w).
Proof. unfold isFirstRun. destruct (String.eqb version APP_VERSION); reflexivity. Qed.

Lemma isRunning_message_split (sender : Application) :
  ARGUMENTS_LIST_SEPARATOR <> "" ->
  forallb (separator_free ARGUMENTS_LIST_SEPARATOR) (isRunning_tokens sender)
    = true ->
  split ARGUMENTS_LIST_SEPARATOR (isRunning_message sender)
  = APP_IS_RUNNING :: drop 1 (arguments sender).
Proof.
  intros Hsep Hfree. unfold isRunning_message.
  rewrite split_join; [reflexivity | exact Hsep | | exact Hfree].
  unfold isRunning_tokens. simpl. congruence.
Qed.

(** X1: the first instance, splitting the message of a second one, gets
    back the token list the second one joined: the is-running flag and
    the arguments after the program name, as many and in that order.
    This needs a separator that is not empty and tokens in which the
    separator does not begin. *)
Theorem isRunning_message_splits_back (sender : Application) :
  ARGUMENTS_LIST_SEPARATOR <> "" ->
  forallb (separator_free ARGUMENTS_LIST_SEPARATOR) (isRunning_tokens sender)
    = true ->
  split ARGUMENTS_LIST_SEPARATOR (isRunning_message sender)
    = APP_IS_RUNNING :: drop 1 (arguments sender)
  /\ length (split ARGUMENTS_LIST_SEPARATOR (isRunning_message sender))
     = S (length (arguments sender) - 1).
Proof.
  intros Hsep Hfree. rewrite isRunning_message_split by assumption.
  split; [reflexivity |]. simpl. rewrite length_drop. reflexivity.
Qed.

(** X2: when the second instance was started without the quit-instance
    flag, the first one, which has a main form, hands the is-running flag
    and the arguments of the second to [loadFilesFromArgs] and shows its
    main form; it neither closes nor quits. *)
Theorem second_instance_arguments_are_loaded
    (sender : Application) (tk : Toolkit) (w : World) :
  ARGUMENTS_LIST_SEPARATOR <> "" ->
  forallb (separator_free ARGUMENTS_LIST_SEPARATOR) (isRunning_tokens sender)
    = true ->
  APP_QUIT_INSTANCE <> APP_IS_RUNNING ->
  APP_QUIT_INSTANCE ∉ drop 1 (arguments sender) ->
  m_mainForm (app w) <> nullptr ->
  processExecutionMessage (isRunning_message sender) tk w
  = Some (tt, mkWorld (app w)
                (calls w ++ [loadFilesFromArgs
                               (APP_IS_RUNNING :: drop 1 (arguments sender));
                             FormMain_display])).
Proof.
  intros Hsep Hfree Hne Hquit Hform. unfold processExecutionMessage.
  rewrite isRunning_message_split by assumption.
  replace (contains _ APP_QUIT_INSTANCE) with false.
  2:{ symmetry. apply contains_false. rewrite elem_of_cons. tauto. }
  replace (contains _ APP_IS_RUNNING) with true.
  2:{ symmetry. apply contains_true. apply list_elem_of_here. }
  destruct w as [a log]. simpl in Hform.
  cbv [bind through this call_ call abort]. simpl.
  destruct (m_mainForm a); [congruence |].
  simpl. rewrite <- app_assoc. reflexivity.
Qed.

(** X3: when the quit-instance flag was among the arguments of the second
    instance, the first one does what [quitApplication] does and loads
    nothing, whatever else was on the command line. *)
Theorem second_instance_quit_flag_quits
    (sender : Application) (tk : Toolkit) (w : World) :
  ARGUMENTS_LIST_SEPARATOR <> "" ->
  forallb (separator_free ARGUMENTS_LIST_SEPARATOR) (isRunning_tokens sender)
    = true ->
  APP_QUIT_INSTANCE ∈ drop 1 (arguments sender) ->
  processExecutionMessage (isRunning_message sender) tk w
  = quitApplication tk w.
Proof.
  intros Hsep Hfree Hquit. unfold processExecutionMessage.
  rewrite isRunning_message_split by assumption.
  replace (contains _ APP_QUIT_INSTANCE) with true; [reflexivity |].
  symmetry. apply contains_true. apply list_elem_of_further. exact Hquit.
Qed.

(** X4: with a separator of one character, the first instance gets as
    many tokens as the second one joined, and one more for every
    occurrence of that character inside them: an argument that contains
    the separator arrives in pieces.  So the tokens can only arrive as
    they were joined when none of them contains the separator. *)
Theorem received_token_count (c : Ascii.ascii) (sender : Application) :
  ARGUMENTS_LIST_SEPARATOR = String c "" ->
  length (split ARGUMENTS_LIST_SEPARATOR (isRunning_message sender))
    = length (isRunning_tokens sender)
      + sum_list (map (occurrences c) (isRunning_tokens sender))
  /\ (split ARGUMENTS_LIST_SEPARATOR (isRunning_message sender)
        = isRunning_tokens sender ->
      forall t, t ∈ isRunning_tokens sender -> occurrences c t = 0).
Proof.
  intros Hsep.
  assert (Hlen :
    length (split ARGUMENTS_LIST_SEPARATOR (isRunning_message sender))
    = length (isRunning_tokens sender)
      + sum_list (map (occurrences c) (isRunning_tokens sender))).
  { unfold isRunning_message. rewrite Hsep.
    unfold split. rewrite split_scan_length.
    apply occurrences_join. unfold isRunning_tokens. simpl. congruence. }
  split; [exact Hlen |].
  intros Heq t Hin. rewrite Heq in Hlen.
  apply (sum_list_zero (map (occurrences c) (isRunning_tokens sender)));
    [lia |].
  apply list_elem_of_fmap. eauto.
Qed.

(** X5: an empty message does nothing, as long as neither flag is the
    empty string. *)
Theorem processExecutionMessage_empty_message (tk : Toolkit) (w : World) :
  APP_QUIT_INSTANCE <> "" -> APP_IS_RUNNING <> "" ->
  processExecutionMessage "" tk w = Some (tt, w).
Proof.
  intros Hquit Hrun. unfold processExecutionMessage.
  assert (Hin : forall t, t <> "" ->
            contains (split ARGUMENTS_LIST_SEPARATOR "") t = false).
  { intros t Ht. apply contains_false.
    destruct ARGUMENTS_LIST_SEPARATOR; simpl; intros Hin; log_cases Hin;
      congruence. }
  rewrite !Hin by assumption. reflexivity.
Qed.

(** X6: [restart].  Without a main form it only leaves the restart
    pending.  With a main form that refuses to close, nothing is pending
    afterwards and [quit] is not called.  With a main form that closes,
    the restart is pending, the application is quitting and [quit] is
    called. *)
Theorem restart_outcomes (tk : Toolkit) (w : World) :
  (m_mainForm (app w) = nullptr ->
   restart tk w
   = Some (tt, mkWorld (set_m_shouldRestart true (app w)) (calls w)))
  /\ (m_mainForm (app w) <> nullptr ->
      FormMain_close_result tk (calls w) = false ->
      exists w',
        restart tk w = Some (tt, w')
        /\ m_shouldRestart (app w') = false
        /\ m_isQuitting (app w') = false
        /\ calls w' = calls w ++ [FormMain_close])
  /\ (m_mainForm (app w) <> nullptr ->
      FormMain_close_result tk (calls w) = true ->
      exists w',
        restart tk w = Some (tt, w')
        /\ m_shouldRestart (app w') = true
        /\ m_isQuitting (app w') = true
        /\ calls w' = calls w ++ [FormMain_close; QCoreApplication_quit]).
Proof.
  unfold restart, bind, assign. rewrite quitApplication_run. simpl.
  split; [| split].
  - intros ->. reflexivity.
  - intros Hform ->. destruct (m_mainForm (app w)); [congruence |]. eauto.
  - intros Hform ->. destruct (m_mainForm (app w)); [congruence |]. eauto.
Qed.

(** X7: with a main form, [isQuitting] tells after [quitApplication]
    whether the form closed, and that is exactly when [quit] was
    called. *)
Theorem isQuitting_after_quitApplication (tk : Toolkit) (w : World) :
  m_mainForm (app w) <> nullptr ->
  exists w' new,
    quitApplication tk w = Some (tt, w')
    /\ calls w' = calls w ++ new
    /\ isQuitting tk w' = Some (FormMain_close_result tk (calls w), w')
    /\ (QCoreApplication_quit ∈ new <-> m_isQuitting (app w') = true).
Proof.
  intros Hform. rewrite quitApplication_run.
  destruct (m_mainForm (app w)); [congruence |].
  destruct (FormMain_close_result tk (calls w)).
  - eexists _, _. split; [reflexivity |]. split; [reflexivity |].
    split; [reflexivity |]. split; [reflexivity | intros _; in_log].
  - eexists _, _. split; [reflexivity |]. split; [reflexivity |].
    split; [reflexivity |]. split; [not_in_log | discriminate].
Qed.

(** X19: [onCommitData] and [QSessionManager::release].  When it was
    allowed to interact it releases the session manager once, after the
    save request and before it cancels, if it does; when it was not
    allowed, it does not release. *)
Theorem onCommitData_releases_once (tk : Toolkit) (w : World) :
  let allowed :=
    allowsInteraction_result tk (calls w ++ [setRestartHint RestartNever]) in
  exists new,
    onCommitData tk w = Some (tt, mkWorld (app w) (calls w ++ new))
    /\ (allowed = true ->
        exists after,
          new = [setRestartHint RestartNever; allowsInteraction;
                 dataSaveRequested; QSessionManager_release] ++ after
          /\ (QSessionManager_release ∉ after)
          /\ (dataSaveRequested ∉ after))
    /\ (allowed = false -> QSessionManager_release ∉ new).
Proof.
  intros allowed. rewrite onCommitData_run. fold allowed.
  eexists. split; [reflexivity |]. destruct allowed.
  - split; [| discriminate]. intros _. eexists. split; [reflexivity |].
    destruct (dataSaveRequested_ok tk _); split; not_in_log.
  - split; [discriminate |]. intros _. not_in_log.
Qed.

End BetweenInstances.

(** ** First run, tray icon and the end of the run *)

Section ApplicationCppRestFacts.
Context `{Definitions} `{Build}.
Local Open Scope P_scope.

(** The name of the per-version setting differs from the name of the
    general one, and the names for two versions differ. *)
Lemma FirstRun_key_ne (version : QString) :
  (General_FirstRun ++ "_" ++ version)%string <> General_FirstRun.
Proof.
  intros Heq. rewrite <- (string_app_nil_r General_FirstRun) in Heq at 2.
  apply String.app_inj in Heq. discriminate.
Qed.

Lemma FirstRun_key_inj (v1 v2 : QString) :
  (General_FirstRun ++ "_" ++ v1)%string = (General_FirstRun ++ "_" ++ v2)%string ->
  v1 = v2.
Proof. intros Heq. apply String.app_inj in Heq. by injection Heq. Qed.

(** What a run of [setValue] returns. *)
Lemma setValue_run (section key : QString) (v : QVariant)
    (env : Environment) (p : Process) :
  setValue section key v env p =
  Some (tt,
    mkProcess
      (mkWorld
         (set_m_settings (<[(section, key) := v]> (m_settings (app (world p))))
            (app (world p)))
         (calls (world p)))
      (others p ++ [(length (calls (world p)), Settings_setValue section key v)])).
Proof. reflexivity. Qed.

(** The answer of [isFirstRun(version)] in a process. *)
Lemma isFirstRun_answer (version : QString) (env : Environment) (p : Process) :
  fst <$> lift (isFirstRun version) env p =
  Some (if String.eqb version APP_VERSION
        then toBool (default (VBool true)
               (m_settings (app (world p))
                  !! (GROUP_General, (General_FirstRun ++ "_" ++ version)%string)))
        else false).
Proof.
  unfold lift. rewrite isFirstRun_run.
  destruct (String.eqb version APP_VERSION); reflexivity.
Qed.

(** The answer of [isFirstRun()] in a process. *)
Lemma isFirstRun_any_answer (env : Environment) (p : Process) :
  fst <$> lift isFirstRun_any env p =
  Some (toBool (default General_FirstRunDef
          (m_settings (app (world p)) !! (GROUP_General, General_FirstRun)))).
Proof. reflexivity. Qed.

(** X8: after [eliminateFirstRun(version)], [isFirstRun(version)] answers
    false, for every version and every content of the settings store;
    and after [eliminateFirstRun()], [isFirstRun()] answers false. *)
Theorem eliminateFirstRun_then_isFirstRun
    (version : QString) (env : Environment) (p : Process) :
  fst <$> (eliminateFirstRun version;;; lift (isFirstRun version)) env p
    = Some false
  /\ fst <$> (eliminateFirstRun_any;;; lift isFirstRun_any) env p = Some false.
Proof.
  unfold bindP, eliminateFirstRun, eliminateFirstRun_any.
  rewrite !setValue_run. split.
  - rewrite isFirstRun_answer. simpl. rewrite lookup_insert_eq.
    destruct (String.eqb version APP_VERSION); reflexivity.
  - rewrite isFirstRun_any_answer. simpl. rewrite lookup_insert_eq. reflexivity.
Qed.

(** X9: the two kinds of first-run flag are kept apart.  What
    [isFirstRun(version)] answers is changed neither by
    [eliminateFirstRun()] nor by [eliminateFirstRun(other)] for another
    version, and what [isFirstRun()] answers is not changed by
    [eliminateFirstRun(version)]. *)
Theorem first_run_flags_are_independent
    (version other : QString) (env : Environment) (p : Process) :
  fst <$> (eliminateFirstRun_any;;; lift (isFirstRun version)) env p
    = fst <$> lift (isFirstRun version) env p
  /\ (other <> version ->
      fst <$> (eliminateFirstRun other;;; lift (isFirstRun version)) env p
      = fst <$> lift (isFirstRun version) env p)
  /\ fst <$> (eliminateFirstRun version;;; lift isFirstRun_any) env p
     = fst <$> lift isFirstRun_any env p.
Proof.
  unfold bindP, eliminateFirstRun, eliminateFirstRun_any.
  rewrite !setValue_run. split; [| split].
  - rewrite !isFirstRun_answer. simpl. rewrite lookup_insert_ne; [reflexivity |].
    intros Heq. injection Heq as Heq. symmetry in Heq.
    exact (FirstRun_key_ne version Heq).
  - intros Hne. rewrite !isFirstRun_answer. simpl.
    rewrite lookup_insert_ne; [reflexivity |].
    intros Heq. injection Heq as Heq. apply FirstRun_key_inj in Heq. congruence.
  - rewrite !isFirstRun_any_answer. simpl.
    rewrite lookup_insert_ne; [reflexivity |].
    intros Heq. injection Heq as Heq. exact (FirstRun_key_ne version Heq).
Qed.

(** What a run of [trayIcon] returns, case by case. *)
Lemma trayIcon_run (env : Environment) (p : Process) :
  let n := length (calls (world p)) in
  let before :=
    others p ++ map (pair n)
      [new_QMenu Q_OS_WIN APP_NAME; connect_triggered; new_QAction;
       setSeparator true; addActions] in
  let icon := new_SystemTrayIcon_address env before in
  trayIcon env p =
  match m_trayIcon (app (world p)) with
  | ptr addr => Some (ptr addr, p)
  | nullptr =>
      match m_mainForm (app (world p)) with
      | nullptr => None
      | ptr _ =>
          Some (ptr icon,
            mkProcess
              (mkWorld (set_m_trayIcon (ptr icon) (app (world p)))
                 (calls (world p)))
              (before ++ map (pair n)
                 [new_SystemTrayIcon APP_ICON_PATH; setToolTip APP_LONG_NAME]))
      end
  end.
Proof.
  destruct p as [[[args q store form tray r i] log] o].
  destruct tray, form;
    cbv [trayIcon bindP lift other other_ retP
         bind through this assign ret abort];
    simpl; rewrite <- ?app_assoc; reflexivity.
Qed.

(** X10: [trayIcon] makes the icon when it is first asked for.  With an
    icon at hand it returns that icon and does nothing else, main form or
    not.  Without one, and with a main form, it makes one and keeps it:
    the pointer returned is not null and is the one stored.  In both
    cases nothing but [m_trayIcon] changes in the application. *)
Theorem trayIcon_is_made_on_demand (env : Environment) (p : Process) :
  (m_trayIcon (app (world p)) <> nullptr ->
   trayIcon env p = Some (m_trayIcon (app (world p)), p))
  /\ (m_trayIcon (app (world p)) = nullptr ->
      m_mainForm (app (world p)) <> nullptr ->
      exists icon p',
        trayIcon env p = Some (ptr icon, p')
        /\ world p' =
           mkWorld (set_m_trayIcon (ptr icon) (app (world p)))
             (calls (world p))
        /\ made (new_SystemTrayIcon APP_ICON_PATH) (others p')).
Proof.
  rewrite trayIcon_run. split.
  - intros Htray. destruct (m_trayIcon (app (world p))); [congruence |].
    reflexivity.
  - intros -> Hform. destruct (m_mainForm (app (world p))); [congruence |].
    eexists _, _. split; [reflexivity |]. split; [reflexivity |].
    exists (length (calls (world p))). simpl.
    rewrite !elem_of_app. right. apply list_elem_of_here.
Qed.

(** X11: without an icon and without a main form [trayIcon] goes through
    the null pointer, and so does [showTrayIcon]. *)
Theorem trayIcon_needs_main_form (env : Environment) (p : Process) :
  m_trayIcon (app (world p)) = nullptr ->
  m_mainForm (app (world p)) = nullptr ->
  trayIcon env p = None /\ showTrayIcon env p = None.
Proof.
  intros Htray Hform. unfold showTrayIcon, bindP.
  rewrite trayIcon_run, Htray, Hform. split; reflexivity.
Qed.

(** X12: asking for the tray icon twice comes to the same as asking once:
    the second call returns the icon of the first and makes no call. *)
Theorem trayIcon_twice (env : Environment) (p : Process) :
  (trayIcon;;; trayIcon) env p = trayIcon env p.
Proof.
  unfold bindP. rewrite (trayIcon_run env p).
  destruct (m_trayIcon (app (world p))) eqn:Htray.
  - destruct (m_mainForm (app (world p))); [reflexivity |].
    rewrite trayIcon_run. reflexivity.
  - rewrite trayIcon_run, Htray. reflexivity.
Qed.

(** X13: [deleteTrayIcon] after [trayIcon].  In an application with a
    main form the two never fail, and they leave no tray icon, whether or
    not there was one before, and quit-on-last-window-closed enabled. *)
Theorem trayIcon_then_deleteTrayIcon (env : Environment) (p : Process) :
  m_mainForm (app (world p)) <> nullptr ->
  exists p',
    (trayIcon;;; lift deleteTrayIcon) env p = Some (tt, p')
    /\ m_trayIcon (app (world p')) = nullptr
    /\ quitOnLastWindowClosed (app (world p')) = true
    /\ m_mainForm (app (world p')) = m_mainForm (app (world p)).
Proof.
  intros Hform. unfold bindP, lift. rewrite trayIcon_run.
  destruct (m_mainForm (app (world p))) as [| f] eqn:Hf; [congruence |].
  destruct (m_trayIcon (app (world p))) eqn:Htray.
  - rewrite deleteTrayIcon_run. simpl. rewrite Hf. eauto.
  - rewrite deleteTrayIcon_run, Htray, Hf. eauto.
Qed.


(** What a run of [onAboutToQuit] returns: it never fails, writes the two
    first-run settings and makes its calls in this order. *)
Lemma onAboutToQuit_run (env : Environment) (p : Process) :
  let a := app (world p) in
  let n := length (calls (world p)) in
  let key := (General_FirstRun ++ "_" ++ APP_VERSION)%string in
  let program :=
    (QUOTE ++ toNativeSeparators env (applicationFilePath env) ++ QUOTE)%string in
  onAboutToQuit env p =
  Some (tt,
    mkProcess
      (mkWorld
         (set_m_settings
            (<[(GROUP_General, key) := VBool false]>
               (<[(GROUP_General, General_FirstRun) := VBool false]>
                  (m_settings a)))
            a)
         (calls (world p)))
      (others p ++ map (pair n)
         ([Settings_setValue GROUP_General General_FirstRun (VBool false);
           Settings_setValue GROUP_General key (VBool false);
           processEvents]
          ++ (if Q_OS_WIN then [removeTrolltechJunkRegistryKeys] else [])
          ++ (if is_null (m_mainForm a) then [] else [FormMain_saveSize])
          ++ (if m_shouldRestart a
              then [finish; startDetached program] else [])))).
Proof.
  destruct p as [[[args q store form tray r i] log] o].
  cbv [onAboutToQuit eliminateFirstRun eliminateFirstRun_any setValue
       bindP lift other other_ retP bind through this assign ret abort].
  simpl. destruct Q_OS_WIN, form, r; simpl; rewrite <- ?app_assoc; reflexivity.
Qed.

(** X15: [onAboutToQuit] always runs to its end, with or without a main
    form, and after it neither [isFirstRun()] nor [isFirstRun(version)],
    for any version, answers true again. *)
Theorem onAboutToQuit_ends_first_run (env : Environment) (p : Process) :
  exists p',
    onAboutToQuit env p = Some (tt, p')
    /\ fst <$> lift isFirstRun_any env p' = Some false
    /\ (forall version, fst <$> lift (isFirstRun version) env p' = Some false).
Proof.
  rewrite onAboutToQuit_run. eexists. split; [reflexivity |]. split.
  - rewrite isFirstRun_any_answer. simpl.
    rewrite lookup_insert_ne, lookup_insert_eq; [reflexivity |].
    intros Heq. injection Heq as Heq. exact (FirstRun_key_ne _ Heq).
  - intros version. rewrite isFirstRun_answer. simpl.
    destruct (String.eqb_spec version APP_VERSION) as [-> |]; [| reflexivity].
    rewrite lookup_insert_eq. reflexivity.
Qed.

(** X16: [onAboutToQuit] starts a new instance exactly when a restart is
    pending: it then calls [finish] and, after it, [startDetached] with
    the native path of the executable between double quotes, and
    otherwise calls neither.  It saves the size of the main form exactly
    when there is one, and it leaves the members of the application other
    than the settings as they are. *)
Theorem onAboutToQuit_restarts_when_pending (env : Environment) (p : Process) :
  let a := app (world p) in
  let program :=
    (QUOTE ++ toNativeSeparators env (applicationFilePath env) ++ QUOTE)%string in
  exists p' new,
    onAboutToQuit env p = Some (tt, p')
    /\ others p' = others p ++ new
    /\ calls (world p') = calls (world p)
    /\ (m_shouldRestart a = true ->
        exists l1 l2 n,
          new = l1 ++ [(n, finish); (n, startDetached program)] ++ l2)
    /\ (m_shouldRestart a = false ->
        ~ made finish new /\ forall prog, ~ made (startDetached prog) new)
    /\ (made FormMain_saveSize new <-> m_mainForm a <> nullptr)
    /\ m_mainForm (app (world p')) = m_mainForm a
    /\ m_trayIcon (app (world p')) = m_trayIcon a
    /\ m_shouldRestart (app (world p')) = m_shouldRestart a
    /\ m_isQuitting (app (world p')) = m_isQuitting a.
Proof.
  intros a program. rewrite onAboutToQuit_run. fold a program.
  eexists _, _. split; [reflexivity |]. split; [reflexivity |].
  split; [reflexivity |].
  assert (Hmade : forall c l, made c (map (pair (length (calls (world p)))) l)
                              <-> c ∈ l).
  { intros c l. unfold made. split.
    - intros [n Hin]. apply list_elem_of_fmap in Hin as [c' [Heq Hin]].
      injection Heq as _ ->. exact Hin.
    - intros Hin. exists (length (calls (world p))).
      apply list_elem_of_fmap. eauto. }
  split; [| split; [| split; [| repeat split]]].
  - intros ->. eexists _, [], _. rewrite app_nil_r, !map_app.
    rewrite !app_assoc. reflexivity.
  - intros ->. split; [| intros prog]; rewrite Hmade;
      destruct Q_OS_WIN, (m_mainForm a); simpl; not_in_log.
  - rewrite Hmade. destruct (m_mainForm a); simpl.
    + split; [| congruence]. destruct Q_OS_WIN, (m_shouldRestart a);
        simpl; intros Hin; log_cases Hin; discriminate.
    + split; [discriminate |]. intros _.
      destruct Q_OS_WIN; simpl; in_log.
Qed.

(** X17: a restart that goes through ends in a new instance: when the
    main form closes on [restart], [quit] is called, and [onAboutToQuit],
    run after it, starts the executable again. *)
Theorem restart_starts_new_instance (env : Environment) (p : Process) :
  let program :=
    (QUOTE ++ toNativeSeparators env (applicationFilePath env) ++ QUOTE)%string in
  m_mainForm (app (world p)) <> nullptr ->
  FormMain_close_result (toolkit env) (calls (world p)) = true ->
  exists p',
    (lift restart;;; onAboutToQuit) env p = Some (tt, p')
    /\ calls (world p')
       = calls (world p) ++ [FormMain_close; QCoreApplication_quit]
    /\ made (startDetached program) (others p').
Proof.
  intros program Hform Hclose. unfold bindP, lift, restart, bind, assign.
  rewrite quitApplication_run. simpl. rewrite Hclose.
  destruct (m_mainForm (app (world p))) eqn:Hf; [congruence |].
  rewrite onAboutToQuit_run. simpl. rewrite Hf. simpl.
  eexists. split; [reflexivity |]. split; [reflexivity |].
  unfold made. simpl. eexists.
  rewrite elem_of_app. right.
  destruct Q_OS_WIN; simpl; in_log.
Qed.

(** X18: a restart that the main form refuses is forgotten: when the
    application quits later on, through [quitApplication] and a main form
    that now closes, [onAboutToQuit] starts no new instance. *)
Theorem refused_restart_is_forgotten (env : Environment) (p : Process) :
  m_mainForm (app (world p)) <> nullptr ->
  FormMain_close_result (toolkit env) (calls (world p)) = false ->
  FormMain_close_result (toolkit env) (calls (world p) ++ [FormMain_close])
    = true ->
  exists p' new,
    (lift restart;;; lift quitApplication;;; onAboutToQuit) env p
      = Some (tt, p')
    /\ calls (world p')
       = calls (world p)
         ++ [FormMain_close; FormMain_close; QCoreApplication_quit]
    /\ others p' = others p ++ new
    /\ forall program, ~ made (startDetached program) new.
Proof.
  intros Hform Hrefused Hcloses. unfold bindP, lift, restart, bind, assign.
  rewrite quitApplication_run. simpl. rewrite Hrefused.
  destruct (m_mainForm (app (world p))) eqn:Hf; [congruence |].
  rewrite quitApplication_run. simpl. rewrite Hf, Hcloses.
  rewrite onAboutToQuit_run. simpl. rewrite Hf. simpl.
  eexists _, _. split; [reflexivity |].
  split; [rewrite <- app_assoc; reflexivity |]. split; [reflexivity |].
  intros program [n Hin]. simpl in Hin. destruct Q_OS_WIN; simpl in Hin;
    log_cases Hin; discriminate.
Qed.

End ApplicationCppRestFacts.

(** ** Further runs on concrete inputs *)

Section FurtherRuns.
#[local] Existing Instance sample_definitions.
#[local] Existing Instance sample_build.

Let tk : Toolkit := sample_toolkit true true true.
Let refusing : Toolkit := sample_toolkit false true true.
Let env : Environment := sample_environment true.
Let started : World := mkWorld sample_application [].
Let running : Process := mkProcess started [].
Let formless : Application :=
  mkApplication ["textosaurus"] true ∅ nullptr nullptr false false.
Let quitter : Application :=
  mkApplication ["textosaurus"; "notes.txt"; "-q"] true ∅ nullptr nullptr
    false false.
Let two_lines : Application :=
  mkApplication ["textosaurus"; ("a" ++ LF ++ "b")%string] true ∅ nullptr
    nullptr false false.

Lemma isRunning_message_splits_back_witness :
  split ARGUMENTS_LIST_SEPARATOR (isRunning_message sample_application)
    = APP_IS_RUNNING :: drop 1 (arguments sample_application)
  /\ length (split ARGUMENTS_LIST_SEPARATOR (isRunning_message sample_application))
     = S (length (arguments sample_application) - 1).
Proof.
  apply (isRunning_message_splits_back sample_application);
    [discriminate | reflexivity].
Defined.

Lemma second_instance_arguments_are_loaded_witness :
  processExecutionMessage (isRunning_message sample_application) tk started
  = Some (tt, mkWorld (app started)
                (calls started
                 ++ [loadFilesFromArgs
                       (APP_IS_RUNNING :: drop 1 (arguments sample_application));
                     FormMain_display])).
Proof.
  apply (second_instance_arguments_are_loaded sample_application tk started).
  - discriminate.
  - reflexivity.
  - discriminate.
  - vm_compute. not_in_log.
  - discriminate.
Defined.

Lemma second_instance_quit_flag_quits_witness :
  processExecutionMessage (isRunning_message quitter) tk started
  = quitApplication tk started.
Proof.
  apply (second_instance_quit_flag_quits quitter tk started).
  - discriminate.
  - reflexivity.
  - vm_compute. in_log.
Defined.

Lemma received_token_count_witness :
  length (split ARGUMENTS_LIST_SEPARATOR (isRunning_message two_lines))
  = length (isRunning_tokens two_lines)
    + sum_list (map (occurrences (Ascii.ascii_of_nat 10))
                  (isRunning_tokens two_lines)).
Proof.
  refine (proj1 (received_token_count (Ascii.ascii_of_nat 10) two_lines _)).
  reflexivity.
Defined.

Lemma onCommitData_releases_once_witness :
  (exists new,
     onCommitData tk started = Some (tt, mkWorld sample_application new)
     /\ QSessionManager_release ∈ new)
  /\ (exists new,
        onCommitData (sample_toolkit true false true) started
          = Some (tt, mkWorld sample_application new)
        /\ QSessionManager_release ∉ new).
Proof.
  split.
  - destruct (onCommitData_releases_once tk started)
      as (new & Hrun & Hallowed & _).
    exists new. split; [exact Hrun |].
    destruct (Hallowed eq_refl) as (after & -> & _). in_log.
  - destruct (onCommitData_releases_once
                (sample_toolkit true false true) started)
      as (new & Hrun & _ & Hrefused).
    exists new. split; [exact Hrun | exact (Hrefused eq_refl)].
Defined.

Lemma processExecutionMessage_empty_message_witness :
  processExecutionMessage "" tk started = Some (tt, started).
Proof.
  apply (processExecutionMessage_empty_message tk started); discriminate.
Defined.

Lemma restart_outcomes_witness :
  restart tk (mkWorld formless [])
    = Some (tt, mkWorld (set_m_shouldRestart true formless) [])
  /\ (exists w',
        restart refusing started = Some (tt, w')
        /\ m_shouldRestart (app w') = false)
  /\ (exists w',
        restart tk started = Some (tt, w')
        /\ m_shouldRestart (app w') = true).
Proof.
  split; [| split].
  - apply (proj1 (restart_outcomes tk (mkWorld formless []))). reflexivity.
  - destruct (proj1 (proj2 (restart_outcomes refusing started)))
      as (w' & Hrun & Hrestart & _); [discriminate | reflexivity |].
    exists w'. split; assumption.
  - destruct (proj2 (proj2 (restart_outcomes tk started)))
      as (w' & Hrun & Hrestart & _); [discriminate | reflexivity |].
    exists w'. split; assumption.
Defined.

Lemma isQuitting_after_quitApplication_witness :
  exists w',
    quitApplication refusing started = Some (tt, w')
    /\ isQuitting refusing w' = Some (false, w').
Proof.
  destruct (isQuitting_after_quitApplication refusing started)
    as (w' & new & Hrun & _ & Hquitting & _); [discriminate |].
  exists w'. split; [exact Hrun | exact Hquitting].
Defined.

Lemma first_run_flags_are_independent_witness :
  (fst <$> (eliminateFirstRun "0.9.12";;; lift (isFirstRun "0.9.13"))%P
             env running)
  = (fst <$> lift (isFirstRun "0.9.13") env running).
Proof.
  apply (proj1 (proj2 (first_run_flags_are_independent
           "0.9.13" "0.9.12" env running))).
  discriminate.
Defined.

Lemma trayIcon_is_made_on_demand_witness :
  trayIcon env (mkProcess (mkWorld (set_m_trayIcon (ptr 2) formless) []) [])
    = Some (ptr 2,
            mkProcess (mkWorld (set_m_trayIcon (ptr 2) formless) []) [])
  /\ (exists icon p',
        trayIcon env running = Some (ptr icon, p')
        /\ world p' = mkWorld (set_m_trayIcon (ptr icon) sample_application) []
        /\ made (new_SystemTrayIcon APP_ICON_PATH) (others p')).
Proof.
  split.
  - apply (proj1 (trayIcon_is_made_on_demand env
             (mkProcess (mkWorld (set_m_trayIcon (ptr 2) formless) []) []))).
    discriminate.
  - apply (proj2 (trayIcon_is_made_on_demand env running));
      [reflexivity | discriminate].
Defined.

Lemma trayIcon_needs_main_form_witness :
  trayIcon env (mkProcess (mkWorld formless []) []) = None
  /\ showTrayIcon env (mkProcess (mkWorld formless []) []) = None.
Proof.
  apply (trayIcon_needs_main_form env (mkProcess (mkWorld formless []) []));
    reflexivity.
Defined.

Lemma trayIcon_then_deleteTrayIcon_witness :
  exists p',
    (trayIcon;;; lift deleteTrayIcon)%P env running = Some (tt, p')
    /\ m_trayIcon (app (world p')) = nullptr
    /\ quitOnLastWindowClosed (app (world p')) = true
    /\ m_mainForm (app (world p')) = ptr 1.
Proof.
  apply (trayIcon_then_deleteTrayIcon env running). discriminate.
Defined.


Lemma onAboutToQuit_restarts_when_pending_witness :
  (exists p' new,
     onAboutToQuit env
       (mkProcess (mkWorld (set_m_shouldRestart true sample_application) []) [])
       = Some (tt, p')
     /\ others p' = new
     /\ made (startDetached (QUOTE ++ "/usr/bin/textosaurus" ++ QUOTE)%string) new)
  /\ (exists p' new,
        onAboutToQuit env running = Some (tt, p')
        /\ others p' = new
        /\ ~ made finish new).
Proof.
  split.
  - destruct (onAboutToQuit_restarts_when_pending env
                (mkProcess
                   (mkWorld (set_m_shouldRestart true sample_application) []) []))
      as (p' & new & Hrun & Hothers & _ & Hpending & _).
    exists p', new. split; [exact Hrun |]. split; [exact Hothers |].
    destruct (Hpending eq_refl) as (l1 & l2 & n & ->).
    exists n. rewrite !elem_of_app. right. left.
    apply list_elem_of_further, list_elem_of_here.
  - destruct (onAboutToQuit_restarts_when_pending env running)
      as (p' & new & Hrun & Hothers & _ & _ & Hnone & _).
    exists p', new. split; [exact Hrun |]. split; [exact Hothers |].
    exact (proj1 (Hnone eq_refl)).
Defined.

Lemma restart_starts_new_instance_witness :
  exists p',
    (lift restart;;; onAboutToQuit)%P env running = Some (tt, p')
    /\ calls (world p') = [FormMain_close; QCoreApplication_quit]
    /\ made (startDetached (QUOTE ++ "/usr/bin/textosaurus" ++ QUOTE)%string)
         (others p').
Proof.
  apply (restart_starts_new_instance env running);
    [discriminate | reflexivity].
Defined.

Lemma refused_restart_is_forgotten_witness :
  exists p' new,
    (lift restart;;; lift quitApplication;;; onAboutToQuit)%P
      hesitant_environment running = Some (tt, p')
    /\ calls (world p')
       = [FormMain_close; FormMain_close; QCoreApplication_quit]
    /\ others p' = new
    /\ forall program, ~ made (startDetached program) new.
Proof.
  apply (refused_restart_is_forgotten hesitant_environment running);
    [discriminate | reflexivity | reflexivity].
Defined.

End FurtherRuns.
